(** * Flight-route visualisation agent: route builder, renderers, orchestrator

    A shallow embedding of [src/agentstack_agents/visualize.py] and of the
    visualisation-related part of [src/agentstack_agents/agent.py].

    Python exceptions are values of [exn] carried by the [result] monad,
    the [nonlocal] buffers of the agent are an explicit state record, and
    everything that lives in a third-party package (the airport table, the
    colour map, matplotlib, folium, the platform file store) is a parameter
    of the functions that use it. *)

From Stdlib Require Import PrimFloat.
From stdpp Require Import base option list gmap strings.

Set Warnings "-inexact-float,-clear-no-such-hyp".
Set Default Proof Using "Type".

(** ** Exceptions and the error monad *)

Inductive exn : Type :=
  | KeyError (key : string)      (* [airports[code]] on a missing code *)
  | IndexError                   (* [flight[i]] out of range *)
  | ExternalError (msg : string) (* raised inside a third-party package *).

Inductive result (A : Type) : Type :=
  | Ok (a : A)
  | Raise (e : exn).
Arguments Ok {A} a.
Arguments Raise {A} e.

#[global] Instance result_ret : MRet result := λ A a, Ok a.
#[global] Instance result_bind : MBind result := λ A B k r,
  match r with
  | Ok a => k a
  | Raise e => Raise e
  end.

(** A [for] loop whose body may raise: the state is threaded from one
    iteration to the next and the first exception leaves the loop. *)
Fixpoint for_each {S A} (body : S → A → result S) (xs : list A) (s : S)
  : result S :=
  match xs with
  | [] => Ok s
  | x :: xs' => s' ← body s x; for_each body xs' s'
  end.

(** ** Python built-ins used by the source *)

(** [range(n)] for a possibly negative [n]. *)
Definition range (n : Z) : list nat := seq 0 (Z.to_nat n).

(** [len(l)] as a Python integer. *)
Definition len {A} (l : list A) : Z := Z.of_nat (length l).

(** [enumerate(l)] *)
Definition enumerate {A} (l : list A) : list (nat * A) :=
  zip (seq 0 (length l)) l.

(** [l[i]] for a non-negative index. *)
Definition getitem {A} (l : list A) (i : nat) : result A :=
  match l !! i with
  | Some x => Ok x
  | None => Raise IndexError
  end.

(** [sep.join(l)] *)
Fixpoint join (sep : string) (l : list string) : string :=
  match l with
  | [] => ""
  | [x] => x
  | x :: l' => x +:+ sep +:+ join sep l'
  end.

(** ** Data model *)

(** One entry of [airportsdata.load("IATA")]; only the two fields the
    source reads. *)
Record Airport : Type := { lat : float; lon : float }.

(** [airports[code]] *)
Definition lookup_airport (airports : gmap string Airport) (code : string)
  : result Airport :=
  match airports !! code with
  | Some a => Ok a
  | None => Raise (KeyError code)
  end.

(** The colour map returned by [plt.cm.get_cmap]: its size [cmap.N], which
    matplotlib keeps positive, and [rgb2hex(cmap(k))] for a slot [k]. *)
Record Colormap : Type := { cmap_N : positive; cmap_hex : nat → string }.

(** shapely geometries, as (x, y) = (lon, lat) coordinates *)
Definition Coord : Type := float * float.

(** A row of [flights_gdf]. *)
Record FlightRow : Type :=
  { route : string; color : string; line : list Coord }.

(** A row of [airports_gdf]. *)
Record AirportRow : Type := { code : string; point : Coord }.

(** [gpd.GeoDataFrame({"route": labels, "color": colors}, geometry=lines)] *)
Definition flights_frame (labels colors : list string)
    (lines : list (list Coord)) : list FlightRow :=
  zip_with (λ lc g, {| route := lc.1; color := lc.2; line := g |})
           (zip labels colors) lines.

(** [gpd.GeoDataFrame({"code": codes}, geometry=points)] *)
Definition airports_frame (codes : list string) (points : list Coord)
  : list AirportRow :=
  zip_with (λ c p, {| code := c; point := p |}) codes points.

(** ** Route builder: [prepare_flight_data] *)

Definition arrow : string := " → ".

Section route_builder.
Variable cmap : Colormap.
Variable airports : gmap string Airport.

(** [matplotlib.colors.rgb2hex(cmap(flight_idx % cmap.N))] *)
Definition flight_color (flight_idx : nat) : string :=
  cmap_hex cmap (flight_idx mod Pos.to_nat (cmap_N cmap)).

(** [f"{origin} → {dest} (part of {full_route})"] *)
Definition segment_label (origin dest full_route : string) : string :=
  origin +:+ arrow +:+ dest +:+ " (part of " +:+ full_route +:+ ")".

(** The three accumulators of the first loop. *)
Record Segments : Type :=
  { flight_lines : list (list Coord);
    flight_labels : list string;
    flight_colors : list string }.

(** Body of [for i in range(len(flight) - 1)]. *)
Definition segment_step (flight : list string) (color : string)
    (acc : Segments) (i : nat) : result Segments :=
  origin ← getitem flight i;
  dest ← getitem flight (i + 1);
  o ← lookup_airport airports origin;
  d ← lookup_airport airports dest;
  let line := [(lon o, lat o); (lon d, lat d)] in
  let full_route := join arrow flight in
  Ok {| flight_lines := flight_lines acc ++ [line];
        flight_labels :=
          flight_labels acc ++ [segment_label origin dest full_route];
        flight_colors := flight_colors acc ++ [color] |}.

(** Body of [for flight_idx, flight in enumerate(flights)]. *)
Definition flight_step (acc : Segments) (entry : nat * list string)
  : result Segments :=
  let '(flight_idx, flight) := entry in
  let color := flight_color flight_idx in
  for_each (segment_step flight color) (range (len flight - 1)) acc.

(** The accumulators of the second loop. *)
Record Airports : Type :=
  { airport_points : list Coord;
    airport_codes : list string;
    seen_codes : gset string }.

(** Body of [for code in flight]. *)
Definition code_step (acc : Airports) (code : string) : result Airports :=
  if decide (code ∉ seen_codes acc) then
    a ← lookup_airport airports code;
    Ok {| airport_points := airport_points acc ++ [(lon a, lat a)];
          airport_codes := airport_codes acc ++ [code];
          seen_codes := seen_codes acc ∪ {[code]} |}
  else Ok acc.

(** Body of [for flight in flights]. *)
Definition airport_step (acc : Airports) (flight : list string)
  : result Airports :=
  for_each code_step flight acc.

(** The two loops, one after the other; the result is the pair
    [(flights_gdf, airports_gdf)]. *)
Definition prepare_flight_data (flights : list (list string))
  : result (list FlightRow * list AirportRow) :=
  segs ← for_each flight_step (enumerate flights)
           {| flight_lines := []; flight_labels := [];
              flight_colors := [] |};
  let flights_gdf :=
    flights_frame (flight_labels segs) (flight_colors segs)
                  (flight_lines segs) in
  aps ← for_each airport_step flights
          {| airport_points := []; airport_codes := [];
             seen_codes := ∅ |};
  let airports_gdf :=
    airports_frame (airport_codes aps) (airport_points aps) in
  Ok (flights_gdf, airports_gdf).
End route_builder.

(** ** Interactive renderer: [create_interactive_map] *)

(** The elements the source adds to a folium map, with the keyword
    arguments it passes. *)
Inductive Element : Type :=
  | PolyLine (locations : list Coord) (color : string) (weight : nat)
             (opacity : float) (tooltip : string)
  | CircleMarker (location : Coord) (radius : nat) (color : string)
                 (fill : bool) (fillColor : string) (fillOpacity : float)
                 (tooltip : string).

(** [folium.Map(location=..., zoom_start=...)] and the children added to
    it so far, oldest first. *)
Record FoliumMap : Type :=
  { location : Coord; zoom_start : nat; children : list Element }.

(** [element.add_to(m)] *)
Definition add_to (element : Element) (m : FoliumMap) : FoliumMap :=
  {| location := location m; zoom_start := zoom_start m;
     children := children m ++ [element] |}.

(** [s.encode("utf-8")]; strings are kept UTF-8 encoded. *)
Definition encode_utf8 (s : string) : list Byte.byte :=
  String.list_byte_of_string s.

Section interactive_renderer.
(** [m.get_root().render()], folium's serialisation of a map *)
Variable render : FoliumMap → string.

(** Body of [for idx, row in flights_gdf.iterrows()]. *)
Definition add_flight_path (m : FoliumMap) (row : FlightRow) : FoliumMap :=
  add_to (PolyLine ((λ coord : Coord, (coord.2, coord.1)) <$> line row)
                   (color row) 3 0.7 (route row)) m.

(** Body of [for idx, row in airports_gdf.iterrows()]. *)
Definition add_airport (m : FoliumMap) (row : AirportRow) : FoliumMap :=
  add_to (CircleMarker ((point row).2, (point row).1) 8 "blue" true "blue"
                       0.7 (code row)) m.

Definition create_interactive_map (flights_gdf : list FlightRow)
    (airports_gdf : list AirportRow) : list Byte.byte :=
  let m := {| location := (30.0, 0.0)%float; zoom_start := 2;
              children := [] |} in
  let m := fold_left add_flight_path flights_gdf m in
  let m := fold_left add_airport airports_gdf m in
  encode_utf8 (render m).
End interactive_renderer.

(** ** Static renderer: [create_static_map] *)

(** The padding of the bounds and the limits handed to [ax.set_xlim] and
    [ax.set_ylim], in binary64 arithmetic as in the source. *)
Definition padded_limits (bounds : float * float * float * float)
  : (float * float) * (float * float) :=
  let '(minx, miny, maxx, maxy) := bounds in
  let padding_x := ((maxx - minx) * 0.1)%float in
  let padding_y := ((maxy - miny) * 0.1)%float in
  ((minx - padding_x, maxx + padding_x)%float,
   (miny - padding_y, maxy + padding_y)%float).

Section static_renderer.
(** the basemap returned by [gpd.read_file] *)
Context {World : Type}.
(** [GeoDataFrame.total_bounds] of a list of geometries:
    (minx, miny, maxx, maxy) *)
Variable total_bounds : list (list Coord) → float * float * float * float.
(** The matplotlib part of the function: the drawing of the basemap, the
    flight paths, the airports and their labels, cropped to the given x and
    y limits, and [fig.savefig] into the buffer. *)
Variable plot_png :
  World → list FlightRow → list AirportRow → float * float → float * float →
  result (list Byte.byte).

(** [read_file] is the outcome of loading the basemap. *)
Definition create_static_map (read_file : result World)
    (flights_gdf : list FlightRow) (airports_gdf : list AirportRow)
  : result (list Byte.byte) :=
  world ← read_file;
  let all_bounds :=
    (line <$> flights_gdf) ++ ((λ row, [point row]) <$> airports_gdf) in
  let '(xlim, ylim) := padded_limits (total_bounds all_bounds) in
  plot_png world flights_gdf airports_gdf xlim ylim.
End static_renderer.

(** ** Orchestrator: [flight_search_agent] *)

(** The two [nonlocal] buffers written by the [visualize_flights] tool. *)
Record Buffers : Type :=
  { static_png_bytes : option (list Byte.byte);
    interactive_html_bytes : option (list Byte.byte) }.

(** Message parts. A file is either inline ([FileWithBytes]) or a
    reference to a file uploaded to the platform. *)
Inductive FileContent (PlatformFile : Type) : Type :=
  | FileWithBytes (bytes mime_type name : string)
  | Uploaded (file : PlatformFile).
Arguments FileWithBytes {PlatformFile} bytes mime_type name.
Arguments Uploaded {PlatformFile} file.

Inductive Part (PlatformFile : Type) : Type :=
  | TextPart (text : string)
  | FilePart (file : FileContent PlatformFile).
Arguments TextPart {PlatformFile} text.
Arguments FilePart {PlatformFile} file.

(** What the agent generator yields. *)
Inductive Yielded (PlatformFile : Type) : Type :=
  | YieldDelta (delta : string)
  | YieldPart (part : Part PlatformFile).
Arguments YieldDelta {PlatformFile} delta.
Arguments YieldPart {PlatformFile} part.

(** Events of the requirement agent, as far as the loop tells them apart. *)
Inductive Event : Type :=
  | RequirementAgentFinalAnswerEvent (delta : string)
  | OtherEvent.

(** What happens, in order, while [RequirementAgent(...).run(prompt)] is
    iterated: the framework hands an event to the loop, or it invokes the
    [visualize_flights] tool (the basemap download of that invocation has
    the given outcome), or it invokes one of the other tools. *)
Inductive Step (World : Type) : Type :=
  | Emit (event : Event)
  | CallVisualize (flights : list (list string)) (read_file : result World)
  | CallOtherTool.
Arguments Emit {World} event.
Arguments CallVisualize {World} flights read_file.
Arguments CallOtherTool {World}.

(** A whole iteration: its steps, and the exception that ended it, if any. *)
Record Run (World : Type) : Type :=
  { steps : list (Step World); run_raised : option exn }.
Arguments steps {World} r.
Arguments run_raised {World} r.

(** What a call of the agent leaves behind. *)
Record AgentOutput (PlatformFile : Type) : Type :=
  { yielded : list (Yielded PlatformFile);
    final_message : option (list (Part PlatformFile));
    raised : option exn }.
Arguments yielded {PlatformFile} a.
Arguments final_message {PlatformFile} a.
Arguments raised {PlatformFile} a.

Section orchestrator.
Context {World PlatformFile : Type}.
Variable cmap : Colormap.
Variable airports : gmap string Airport.
Variable total_bounds : list (list Coord) → float * float * float * float.
Variable plot_png :
  World → list FlightRow → list AirportRow → float * float → float * float →
  result (list Byte.byte).
Variable render : FoliumMap → string.
(** [base64.b64encode(b).decode("utf-8")] *)
Variable b64encode : list Byte.byte → string.
(** [File.create(filename=..., content=..., content_type=...)] *)
Variable File_create : string → list Byte.byte → string → result PlatformFile.
(** [MCPTool.from_client(client)] *)
Variable from_client : result unit.
(** [RequirementAgent(...).run(prompt)] *)
Variable agent_run : string → Run World.

(** The tool body. An exception leaves the function at once: the buffers
    keep what was assigned before it. *)
Definition visualize_flights (flights : list (list string))
    (read_file : result World) (bufs : Buffers) : result unit * Buffers :=
  match prepare_flight_data cmap airports flights with
  | Raise e => (Raise e, bufs)
  | Ok (flights_gdf, airports_gdf) =>
      match create_static_map total_bounds plot_png read_file
              flights_gdf airports_gdf with
      | Raise e => (Raise e, bufs)
      | Ok png =>
          let bufs := {| static_png_bytes := Some png;
                         interactive_html_bytes :=
                           interactive_html_bytes bufs |} in
          let html := create_interactive_map render flights_gdf airports_gdf in
          (Ok (), {| static_png_bytes := static_png_bytes bufs;
                     interactive_html_bytes := Some html |})
      end
  end.

(** State of the [async for] loop. *)
Record Loop : Type :=
  { buffers : Buffers;
    final_answer : list string;
    emitted : list (Yielded PlatformFile) }.

(** One step of the run: a final-answer event is appended and yielded,
    an invocation of the tool updates the buffers. *)
Definition loop_step (st : Loop) (step : Step World) : Loop :=
  match step with
  | Emit (RequirementAgentFinalAnswerEvent delta) =>
      {| buffers := buffers st;
         final_answer := final_answer st ++ [delta];
         emitted := emitted st ++ [YieldDelta delta] |}
  | Emit OtherEvent => st
  | CallVisualize flights read_file =>
      {| buffers := (visualize_flights flights read_file (buffers st)).2;
         final_answer := final_answer st;
         emitted := emitted st |}
  | CallOtherTool => st
  end.

(** [input.parts[0].root.text] *)
Definition input_text (input : list (Part PlatformFile)) : result string :=
  part ← getitem input 0;
  match part with
  | TextPart text => Ok text
  | FilePart _ => Raise (ExternalError "AttributeError")
  end.

(** The agent left by the exception [e] after yielding [ys]. *)
Definition stopped (ys : list (Yielded PlatformFile)) (e : exn)
  : AgentOutput PlatformFile :=
  {| yielded := ys; final_message := None; raised := Some e |}.

(** The agent, from the prompt to the final message. The calls that store
    the input and the final message in the context and the set-up of the
    language model have no part in what is yielded and are left out; the
    final message that is stored is [final_message]. *)
Definition flight_search_agent (input : list (Part PlatformFile))
  : AgentOutput PlatformFile :=
  match input_text input with
  | Raise e => stopped [] e
  | Ok text =>
  let prompt := "Search flights for the user query: " +:+ text in
  let bufs := {| static_png_bytes := None; interactive_html_bytes := None |} in
  match from_client with
  | Raise e => stopped [] e
  | Ok _ =>
  let run := agent_run prompt in
  let st := fold_left loop_step (steps run)
              {| buffers := bufs; final_answer := []; emitted := [] |} in
  match run_raised run with
  | Some e => stopped (emitted st) e
  | None =>
  let final_message := [TextPart (String.concat "" (final_answer st))] in
  let '(final_message, ys) :=
    match static_png_bytes (buffers st) with
    | Some png =>
        let base64_string := b64encode png in
        let file_part :=
          FilePart (FileWithBytes base64_string "image/png" "flights.png") in
        (final_message ++ [file_part], emitted st ++ [YieldPart file_part])
    | None => (final_message, emitted st)
    end in
  match interactive_html_bytes (buffers st) with
  | Some html =>
      match File_create "flights.html" html "text/html" with
      | Raise e => stopped ys e
      | Ok file =>
          let file_part := FilePart (Uploaded file) in
          {| yielded := ys ++ [YieldPart file_part];
             final_message := Some (final_message ++ [file_part]);
             raised := None |}
      end
  | None =>
      {| yielded := ys; final_message := Some final_message; raised := None |}
  end
  end
  end
  end.
End orchestrator.

(** ** The matplotlib calls of [create_static_map]

    The part of [create_static_map] that follows the computation of the
    padding, as the sequence of calls it makes on the figure and its axes,
    each with the arguments the source passes; matplotlib itself stays a
    parameter that turns the basemap and the calls into the image. *)

Inductive Call : Type :=
  | Subplots (figsize : nat * nat)
  | PlotWorld (color edgecolor : string) (linewidth : float)
  | PlotFlights (geometry : list (list Coord)) (color : list string)
                (linewidth : nat) (alpha : float) (zorder : nat)
  | PlotAirports (geometry : list Coord) (color : string) (markersize : nat)
                 (alpha : float) (zorder : nat)
  | Annotate (text : string) (xy : Coord) (xytext : nat * nat)
             (textcoords : string) (fontsize : nat) (fontweight : string)
             (boxstyle facecolor : string) (alpha : float)
  | SetXlim (left right : float)
  | SetYlim (bottom top : float)
  | Title (label : string) (fontsize : nat) (fontweight : string)
  | SetAxisOff
  | Savefig (format : string) (dpi : nat) (bbox_inches facecolor : string)
  | Close.

(** Body of [for _, row in airports_gdf.iterrows()]. *)
Definition annotate_airport (calls : list Call) (row : AirportRow)
  : list Call :=
  calls ++ [Annotate (code row) ((point row).1, (point row).2) (5, 5)
                     "offset points" 10 "bold" "round,pad=0.3" "yellow" 0.7].

Definition static_map_calls (flights_gdf : list FlightRow)
    (airports_gdf : list AirportRow) (xlim ylim : float * float)
  : list Call :=
  let calls :=
    [ Subplots (15, 10);
      PlotWorld "lightgray" "black" 0.5;
      PlotFlights (line <$> flights_gdf) (color <$> flights_gdf) 2 0.7 2;
      PlotAirports (point <$> airports_gdf) "blue" 100 0.9 3 ] in
  let calls := fold_left annotate_airport airports_gdf calls in
  calls ++ [ SetXlim xlim.1 xlim.2; SetYlim ylim.1 ylim.2;
             Title "Flight Paths" 16 "bold"; SetAxisOff;
             Savefig "png" 300 "tight" "white"; Close ].

(** [create_static_map] with its drawing spelled out. *)
Definition create_static_map_calls {World : Type}
    (total_bounds : list (list Coord) → float * float * float * float)
    (matplotlib : World → list Call → result (list Byte.byte))
    (read_file : result World) (flights_gdf : list FlightRow)
    (airports_gdf : list AirportRow) : result (list Byte.byte) :=
  create_static_map total_bounds
    (λ world flights_gdf airports_gdf xlim ylim,
       matplotlib world (static_map_calls flights_gdf airports_gdf xlim ylim))
    read_file flights_gdf airports_gdf.

(** ** Vocabulary of the statements *)

(** The consecutive waypoint pairs [(flight[j], flight[j+1])]. *)
Definition consecutive (flight : list string) : list (string * string) :=
  zip flight (drop 1 flight).

(** The number of segments of the itineraries before index [i]. *)
Definition segments_before (flights : list (list string)) (i : nat) : nat :=
  sum_list ((λ flight, length flight - 1) <$> take i flights).

Section route_builder_vocabulary.
Variable cmap : Colormap.
Variable airports : gmap string Airport.

(** The row built for one leg of [flight], when both ends resolve. *)
Definition leg_row (col : string) (flight : list string)
    (od : string * string) : result FlightRow :=
  o ← lookup_airport airports od.1;
  d ← lookup_airport airports od.2;
  Ok {| route := segment_label od.1 od.2 (join arrow flight);
        color := col;
        line := [(lon o, lat o); (lon d, lat d)] |}.

Definition push_rows (acc : Segments) (rows : list FlightRow) : Segments :=
  {| flight_lines := flight_lines acc ++ (line <$> rows);
     flight_labels := flight_labels acc ++ (route <$> rows);
     flight_colors := flight_colors acc ++ (color <$> rows) |}.

(** The rows contributed by the itinerary at index [idx]. *)
Definition flight_rows (entry : nat * list string) : result (list FlightRow) :=
  mapM (leg_row (flight_color cmap entry.1) entry.2) (consecutive entry.2).

(** What the second loop has established once the codes [p] are read. *)
Record airports_inv (p : list string) (acc : Airports) : Prop :=
  { inv_nodup : NoDup (airport_codes acc);
    inv_seen : ∀ c, c ∈ seen_codes acc ↔ c ∈ airport_codes acc;
    inv_codes : ∀ c, c ∈ airport_codes acc ↔ c ∈ p;
    inv_points :
      Forall2 (λ c pt, ∃ a, airports !! c = Some a ∧ pt = (lon a, lat a))
              (airport_codes acc) (airport_points acc);
    inv_order : ∀ k c, airport_codes acc !! k = Some c →
      ∃ p1 p2, p = p1 ++ c :: p2 ∧ (c ∉ p1) ∧
               ∀ c', c' ∈ take k (airport_codes acc) ↔ c' ∈ p1 }.

(** Every code of every itinerary is in the airport table. *)
Definition all_known (flights : list (list string)) : Prop :=
  ∀ flight c, flight ∈ flights → c ∈ flight → is_Some (airports !! c).

(** The leg rows of each itinerary, itinerary by itinerary. *)
Definition blocks_of (flights : list (list string))
    (blocks : list (list FlightRow)) : Prop :=
  Forall2 (λ entry block,
             Forall2 (λ od row,
                        leg_row (flight_color cmap entry.1) entry.2 od = Ok row)
                     (consecutive entry.2) block)
          (enumerate flights) blocks.

End route_builder_vocabulary.

(** The poly-lines of a map, each as (colour, tooltip). *)
Definition polylines (m : FoliumMap) : list (string * string) :=
  omap (λ element,
          match element with
          | PolyLine _ color _ _ tooltip => Some (color, tooltip)
          | CircleMarker _ _ _ _ _ _ _ => None
          end) (children m).

(** The tooltips of the markers of a map. *)
Definition markers (m : FoliumMap) : list string :=
  omap (λ element,
          match element with
          | PolyLine _ _ _ _ _ => None
          | CircleMarker _ _ _ _ _ _ tooltip => Some tooltip
          end) (children m).

Section orchestrator_vocabulary.
Context {World PlatformFile : Type}.
Variable cmap : Colormap.
Variable airports : gmap string Airport.
Variable total_bounds : list (list Coord) → float * float * float * float.
Variable plot_png :
  World → list FlightRow → list AirportRow → float * float → float * float →
  result (list Byte.byte).
Variable render : FoliumMap → string.
Variable b64encode : list Byte.byte → string.
Variable File_create : string → list Byte.byte → string → result PlatformFile.
Variable agent_run : string → Run World.

(** The invocation [step] of the tool assigned [png] to the static buffer. *)
Definition sets_static (step : Step World) (png : list Byte.byte) : Prop :=
  ∃ flights read_file flights_gdf airports_gdf,
    step = CallVisualize flights read_file ∧
    prepare_flight_data cmap airports flights
      = Ok (flights_gdf, airports_gdf) ∧
    create_static_map total_bounds plot_png read_file flights_gdf airports_gdf
      = Ok png.

(** The invocation [step] of the tool assigned [html] to the interactive
    buffer. *)
Definition sets_interactive (step : Step World) (html : list Byte.byte)
  : Prop :=
  ∃ flights read_file flights_gdf airports_gdf png,
    step = CallVisualize flights read_file ∧
    prepare_flight_data cmap airports flights
      = Ok (flights_gdf, airports_gdf) ∧
    create_static_map total_bounds plot_png read_file flights_gdf airports_gdf
      = Ok png ∧
    html = create_interactive_map render flights_gdf airports_gdf.

(** The file part [file] goes back to an invocation of the tool in the run:
    it is the inline PNG of a static buffer the invocation assigned, or the
    upload of an interactive buffer it assigned. *)
Definition from_tool (file : FileContent PlatformFile) : Prop :=
  ∃ prompt step,
    step ∈ steps (agent_run prompt) ∧
    ((∃ png, sets_static step png ∧
             file = FileWithBytes (b64encode png) "image/png" "flights.png") ∨
     (∃ html f, sets_interactive step html ∧
                File_create "flights.html" html "text/html" = Ok f ∧
                file = Uploaded f)).

(** The reading of the static renderer's failure as harmless to the
    interactive one: whenever the basemap cannot be loaded, the tool still
    assigns the interactive rendering of the request to its buffer. *)
Definition interactive_survives_static_failure : Prop :=
  ∀ flights e bufs flights_gdf airports_gdf,
    prepare_flight_data cmap airports flights
      = Ok (flights_gdf, airports_gdf) →
    interactive_html_bytes
      (visualize_flights cmap airports total_bounds plot_png render
         flights (Raise e) bufs).2
    = Some (create_interactive_map render flights_gdf airports_gdf).

End orchestrator_vocabulary.

(** ** Vocabulary of the further statements *)

(** The codes of [codes] without their later repetitions. *)
Fixpoint nub (codes : list string) : list string :=
  match codes with
  | [] => []
  | c :: codes' => c :: filter (λ c', c' ≠ c) (nub codes')
  end.

(** The first code of [codes] that the table does not hold. *)
Fixpoint first_unknown (airports : gmap string Airport) (codes : list string)
  : option string :=
  match codes with
  | [] => None
  | c :: codes' =>
      match airports !! c with
      | None => Some c
      | Some _ => first_unknown airports codes'
      end
  end.

(** The itineraries that have at least one leg. *)
Definition with_legs (flights : list (list string)) : list (list string) :=
  filter (λ flight, 2 ≤ length flight) flights.

(** What a segment shows apart from its colour. *)
Definition uncolored (row : FlightRow) : string * list Coord :=
  (route row, line row).

(** The result of the route builder apart from the colours. *)
Definition without_colours (r : list FlightRow * list AirportRow)
  : list (string * list Coord) * list AirportRow :=
  (uncolored <$> r.1, r.2).

(** The palette [cmap] read from slot [n] on. *)
Definition rotate (n : nat) (cmap : Colormap) : Colormap :=
  {| cmap_N := cmap_N cmap;
     cmap_hex := λ k, cmap_hex cmap ((n + k) mod Pos.to_nat (cmap_N cmap)) |}.

(** The airport row of a code the table holds. *)
Definition airport_row (airports : gmap string Airport) (c : string)
  : AirportRow :=
  {| code := c;
     point := match airports !! c with
              | Some a => (lon a, lat a)
              | None => (nan, nan)
              end |}.

(** The deltas of the final-answer events of a run, in order. *)
Definition deltas_of {World} (run_steps : list (Step World)) : list string :=
  omap (λ step,
          match step with
          | Emit (RequirementAgentFinalAnswerEvent delta) => Some delta
          | _ => None
          end) run_steps.

(** The inline PNG part made from a static buffer. *)
Definition png_part {PlatformFile} (b64encode : list Byte.byte → string)
    (png : list Byte.byte) : Part PlatformFile :=
  FilePart (FileWithBytes (b64encode png) "image/png" "flights.png").

(** The text labels among the calls, each as (text, anchor). *)
Definition annotations (calls : list Call) : list (string * Coord) :=
  omap (λ call,
          match call with
          | Annotate text xy _ _ _ _ _ _ _ => Some (text, xy)
          | _ => None
          end) calls.

#[global] Instance result_fmap : FMap result := λ A B f r,
  match r with
  | Ok a => Ok (f a)
  | Raise e => Raise e
  end.

(** ** Inputs for running the functions

    A small airport table. *)
Definition demo_airports : gmap string Airport :=
  {[ "PRG" := {| lat := 50.1008; lon := 14.26 |};
     "LAS" := {| lat := 36.08; lon := -115.152 |};
     "JFK" := {| lat := 40.6398; lon := -73.7789 |} ]}.

(** matplotlib's "tab10" palette. *)
Definition demo_cmap : Colormap :=
  {| cmap_N := 10;
     cmap_hex := λ k,
       nth k ["#1f77b4"; "#ff7f0e"; "#2ca02c"; "#d62728"; "#9467bd";
              "#8c564b"; "#e377c2"; "#7f7f7f"; "#bcbd22"; "#17becf"]
             "#000000" |}.

(** Stand-ins for the third-party calls of the renderers and the agent:
    bounds by minimum and maximum, a fixed image, a fixed document. *)
Definition fmin (x y : float) : float := if (x <? y)%float then x else y.
Definition fmax (x y : float) : float := if (y <? x)%float then x else y.

Definition demo_total_bounds (geoms : list (list Coord))
  : float * float * float * float :=
  match concat geoms with
  | [] => (nan, nan, nan, nan)
  | (x, y) :: coords =>
      fold_left (λ '(minx, miny, maxx, maxy) '(x, y),
                   (fmin minx x, fmin miny y, fmax maxx x, fmax maxy y))
                coords (x, y, x, y)
  end.

Definition demo_plot_png (world : unit) (flights_gdf : list FlightRow)
    (airports_gdf : list AirportRow) (xlim ylim : float * float)
  : result (list Byte.byte) :=
  Ok [Byte.x89; Byte.x50; Byte.x4e; Byte.x47].

Definition demo_render (m : FoliumMap) : string := "<!DOCTYPE html>".

Definition demo_b64encode (b : list Byte.byte) : string := "iVBORw==".

Definition demo_File_create (filename : string) (content : list Byte.byte)
    (content_type : string) : result string :=
  Ok ("file:" +:+ filename).

Definition basemap_unreachable : result unit :=
  Raise (ExternalError "URLError").

(** A run in which the tool is invoked once, the basemap download fails,
    and the agent then answers. *)
Definition demo_run_offline (prompt : string) : Run unit :=
  {| steps := [ CallOtherTool;
                CallVisualize [["PRG"; "LAS"]] basemap_unreachable;
                Emit (RequirementAgentFinalAnswerEvent "One flight found.") ];
     run_raised := None |}.

(** The same run with the basemap available. *)
Definition demo_run_online (prompt : string) : Run unit :=
  {| steps := [ CallOtherTool;
                CallVisualize [["PRG"; "LAS"]] (Ok ());
                Emit (RequirementAgentFinalAnswerEvent "One flight found.") ];
     run_raised := None |}.

(** A run that never invokes the tool. *)
Definition demo_run_no_tool (prompt : string) : Run unit :=
  {| steps := [ Emit OtherEvent;
                Emit (RequirementAgentFinalAnswerEvent "No flights. ");
                Emit (RequirementAgentFinalAnswerEvent "Sorry.") ];
     run_raised := None |}.

(** A run with three invocations of the tool: one that succeeds, one on an
    unknown code and one without basemap. *)
Definition demo_run_twice (prompt : string) : Run unit :=
  {| steps := [ CallVisualize [["PRG"; "JFK"]] (Ok ());
                Emit (RequirementAgentFinalAnswerEvent "Two ");
                CallVisualize [["PRG"; "LAS"]] (Ok ());
                CallVisualize [["XXX"]] (Ok ());
                Emit OtherEvent;
                CallVisualize [["LAS"; "JFK"]] basemap_unreachable;
                Emit (RequirementAgentFinalAnswerEvent "flights.") ];
     run_raised := None |}.

(** A run that is ended by an exception after a successful invocation. *)
Definition demo_run_interrupted (prompt : string) : Run unit :=
  {| steps := [ Emit (RequirementAgentFinalAnswerEvent "One ");
                CallVisualize [["PRG"; "LAS"]] (Ok ()) ];
     run_raised := Some (ExternalError "ChatModelError") |}.

(** A file store that is out of reach. *)
Definition demo_File_create_offline (filename : string)
    (content : list Byte.byte) (content_type : string) : result string :=
  Raise (ExternalError "ApiError").

(** A stand-in for matplotlib. *)
Definition demo_matplotlib (world : unit) (calls : list Call)
  : result (list Byte.byte) :=
  Ok [Byte.x89; Byte.x50; Byte.x4e; Byte.x47].

Definition demo_agent (agent_run : string → Run unit)
    (input : list (Part string)) : AgentOutput string :=
  flight_search_agent demo_cmap demo_airports demo_total_bounds demo_plot_png
    demo_render demo_b64encode demo_File_create (Ok ()) agent_run input.

Example prepare_demo :
  prepare_flight_data demo_cmap demo_airports [["PRG"; "LAS"]; ["JFK"]] =
  Ok ([ {| route := "PRG → LAS (part of PRG → LAS)"; color := "#1f77b4";
           line := [(14.26, 50.1008); (-115.152, 36.08)]%float |} ],
      [ {| code := "PRG"; point := (14.26, 50.1008)%float |};
        {| code := "LAS"; point := (-115.152, 36.08)%float |};
        {| code := "JFK"; point := (-73.7789, 40.6398)%float |} ]).
Proof. vm_compute. reflexivity. Qed.

Example prepare_demo_unknown :
  prepare_flight_data demo_cmap demo_airports [["PRG"; "LAS"]; ["XXX"]] =
  Raise (KeyError "XXX").
Proof. vm_compute. reflexivity. Qed.

(** The limits around the leg PRG - LAS lie strictly outside its bounds. *)
Example padded_limits_demo :
  let bounds :=
    demo_total_bounds [[(14.26, 50.1008); (-115.152, 36.08)]%float] in
  let '(minx, miny, maxx, maxy) := bounds in
  let '((x0, x1), (y0, y1)) := padded_limits bounds in
  bounds = (-115.152, 36.08, 14.26, 50.1008)%float ∧
  (x0 <? minx)%float = true ∧ (maxx <? x1)%float = true ∧
  (y0 <? miny)%float = true ∧ (maxy <? y1)%float = true.
Proof. vm_compute. repeat split. Qed.

(** A single point: the padding is zero and the limits are the point. *)
Example padded_limits_point :
  padded_limits (14.26, 50.1008, 14.26, 50.1008)%float
  = ((14.26, 14.26), (50.1008, 50.1008))%float.
Proof. vm_compute. reflexivity. Qed.

(** Two longitudes one unit in the last place apart: the padding is
    positive and is lost when it is subtracted from or added to the
    bounds. *)
Example padded_limits_rounding :
  let minx := 100%float in
  let maxx := next_up 100%float in
  (0 <? (maxx - minx) * 0.1)%float = true ∧
  (padded_limits (minx, 0, maxx, 0)%float).1 = (minx, maxx).
Proof. vm_compute. split; reflexivity. Qed.

Example agent_demo_online :
  demo_agent demo_run_online [TextPart "PRG to LAS"] =
  {| yielded :=
       [ YieldDelta "One flight found.";
         YieldPart (FilePart (FileWithBytes "iVBORw==" "image/png"
                                            "flights.png"));
         YieldPart (FilePart (Uploaded "file:flights.html")) ];
     final_message :=
       Some [ TextPart "One flight found.";
              FilePart (FileWithBytes "iVBORw==" "image/png" "flights.png");
              FilePart (Uploaded "file:flights.html") ];
     raised := None |}.
Proof. vm_compute. reflexivity. Qed.

Example agent_demo_offline :
  demo_agent demo_run_offline [TextPart "PRG to LAS"] =
  {| yielded := [YieldDelta "One flight found."];
     final_message := Some [TextPart "One flight found."];
     raised := None |}.
Proof. vm_compute. reflexivity. Qed.

Example agent_demo_no_tool :
  demo_agent demo_run_no_tool [TextPart "PRG to LAS"] =
  {| yielded := [YieldDelta "No flights. "; YieldDelta "Sorry."];
     final_message := Some [TextPart "No flights. Sorry."];
     raised := None |}.
Proof. vm_compute. reflexivity. Qed.

(** ** Generic facts about loops in the error monad *)

Lemma bind_Ok {A B} (r : result A) (k : A → result B) b :
  (r ≫= k) = Ok b ↔ ∃ a, r = Ok a ∧ k a = Ok b.
Proof.
  destruct r as [a|e]; cbn; split.
  - eauto.
  - by intros (? & [= <-] & ?).
  - done.
  - by intros (? & [=] & _).
Qed.

Lemma bind_Raise {A B} (r : result A) (k : A → result B) e :
  (r ≫= k) = Raise e ↔ r = Raise e ∨ ∃ a, r = Ok a ∧ k a = Raise e.
Proof.
  destruct r as [a|e']; cbn; split.
  - intros H. right. by exists a.
  - by intros [[=]|(? & [= <-] & ?)].
  - intros [= ->]. by left.
  - by intros [[= ->]|(? & [=] & _)].
Qed.

Lemma for_each_app {S A} (body : S → A → result S) xs ys s :
  for_each body (xs ++ ys) s = (for_each body xs s ≫= for_each body ys).
Proof.
  revert s. induction xs as [|x xs IH]; intros s; cbn; [done|].
  destruct (body s x); cbn; auto.
Qed.

(** Two nested loops over a list of lists visit the concatenation. *)
Lemma for_each_concat {S A} (body : S → A → result S) (xss : list (list A)) s :
  for_each (λ s xs, for_each body xs s) xss s = for_each body (concat xss) s.
Proof.
  revert s. induction xss as [|xs xss IH]; intros s; cbn; [done|].
  rewrite for_each_app. destruct (for_each body xs s); cbn; auto.
Qed.

(** A loop that only appends the images of its items is a [mapM]. *)
Lemma for_each_mapM {S A B} (body : S → A → result S) (f : A → result B)
    (push : S → list B → S) xs s :
  (∀ s, push s [] = s) →
  (∀ s ys zs, push (push s ys) zs = push s (ys ++ zs)) →
  (∀ s x, body s x = (f x ≫= λ y, Ok (push s [y]))) →
  for_each body xs s = (mapM f xs ≫= λ ys, Ok (push s ys)).
Proof.
  intros Hnil Happ Hbody. revert s.
  induction xs as [|x xs IH]; intros s; cbn.
  - by rewrite Hnil.
  - rewrite Hbody. destruct (f x) as [y|e]; cbn; [|done].
    rewrite IH. destruct (mapM f xs) as [ys|e]; cbn; [|done].
    by rewrite Happ.
Qed.

Lemma elem_of_concat {A} (x : A) (ls : list (list A)) :
  x ∈ concat ls ↔ ∃ l, l ∈ ls ∧ x ∈ l.
Proof.
  rewrite list_elem_of_In, in_concat. setoid_rewrite list_elem_of_In.
  done.
Qed.

Lemma mapM_Ok {A B} (f : A → result B) xs ys :
  mapM f xs = Ok ys ↔ Forall2 (λ x y, f x = Ok y) xs ys.
Proof.
  revert ys. induction xs as [|x xs IH]; intros ys; cbn.
  - split; [intros [= <-]; constructor | by inversion 1].
  - split.
    + intros (y & Hy & H)%bind_Ok. apply bind_Ok in H as (ys' & Hys & [= <-]).
      constructor; [done|]. by apply IH.
    + inversion 1 as [|? y ? ys' Hy Hys]; subst. rewrite Hy. cbn.
      apply IH in Hys. by rewrite Hys.
Qed.

Lemma mapM_app {A B} (f : A → result B) xs ys :
  mapM f (xs ++ ys)
  = (mapM f xs ≫= λ xs', mapM f ys ≫= λ ys', Ok (xs' ++ ys')).
Proof.
  induction xs as [|x xs IH]; cbn.
  - by destruct (mapM f ys).
  - destruct (f x); cbn; [|done]. rewrite IH.
    destruct (mapM f xs); cbn; [|done]. by destruct (mapM f ys).
Qed.

Lemma mapM_Raise {A B} (f : A → result B) xs e :
  mapM f xs = Raise e → ∃ x, x ∈ xs ∧ f x = Raise e.
Proof.
  induction xs as [|x xs IH]; cbn; [done|].
  intros [H|(y & Hy & H)]%bind_Raise.
  - exists x. split; [left|done].
  - apply bind_Raise in H as [H|(? & _ & [=])].
    destruct (IH H) as (x' & ? & ?). exists x'. split; [by right|done].
Qed.

Lemma mapM_total {A B} (f : A → result B) xs :
  (∀ x, x ∈ xs → ∃ y, f x = Ok y) → ∃ ys, mapM f xs = Ok ys.
Proof.
  induction xs as [|x xs IH]; intros H; cbn; [by eexists|].
  destruct (H x) as [y Hy]; [left|]. rewrite Hy. cbn.
  destruct IH as [ys Hys]; [intros; apply H; by right|].
  rewrite Hys. by eexists.
Qed.

(** ** The route builder, loop by loop *)

Lemma consecutive_length flight :
  length (consecutive flight) = length flight - 1.
Proof. unfold consecutive. rewrite length_zip, length_drop. lia. Qed.

Lemma consecutive_lookup flight j o d :
  consecutive flight !! j = Some (o, d) ↔
  flight !! j = Some o ∧ flight !! (j + 1) = Some d.
Proof.
  unfold consecutive. rewrite lookup_zip_with_Some, lookup_drop.
  replace (1 + j) with (j + 1) by lia. split.
  - by intros (? & ? & [= <- <-] & ? & ?).
  - intros [? ?]. by exists o, d.
Qed.

Section route_builder_facts.
Variable cmap : Colormap.
Variable airports : gmap string Airport.

Lemma push_rows_nil acc : push_rows acc [] = acc.
Proof. destruct acc. unfold push_rows. cbn. by rewrite !app_nil_r. Qed.

Lemma push_rows_app acc ys zs :
  push_rows (push_rows acc ys) zs = push_rows acc (ys ++ zs).
Proof. unfold push_rows. cbn. by rewrite !fmap_app, !app_assoc. Qed.

Lemma flights_frame_rows (rows : list FlightRow) :
  flights_frame (route <$> rows) (color <$> rows) (line <$> rows)
  = rows.
Proof.
  unfold flights_frame. induction rows as [|[] rows IH]; cbn; [done|].
  by f_equal.
Qed.

(** The index loop over [range(len(flight) - 1)] reads exactly the
    consecutive pairs, in order. *)
Lemma segment_loop_pairs flight col n acc :
  n ≤ length flight - 1 →
  for_each (segment_step airports flight col) (seq 0 n) acc
  = (mapM (leg_row airports col flight) (take n (consecutive flight))
       ≫= λ rows, Ok (push_rows acc rows)).
Proof.
  induction n as [|n IH]; intros Hn.
  - rewrite take_0. cbn. by rewrite push_rows_nil.
  - rewrite seq_S, for_each_app, IH by lia. cbn [Nat.add].
    destruct (lookup_lt_is_Some_2 (consecutive flight) n) as [[o d] Hod].
    { rewrite consecutive_length. lia. }
    rewrite (take_S_r _ _ _ Hod).
    apply consecutive_lookup in Hod as [Ho Hd].
    assert (Hstep : ∀ a, segment_step airports flight col a n
              = (leg_row airports col flight (o, d) ≫= λ r, Ok (push_rows a [r]))).
    { intros a. unfold segment_step, getitem, leg_row. rewrite Ho, Hd. cbn.
      destruct (lookup_airport airports o); cbn; [|done].
      by destruct (lookup_airport airports d). }
    rewrite mapM_app.
    destruct (mapM (leg_row airports col flight) (take n (consecutive flight)))
      as [rs|]; cbn; [|done].
    rewrite Hstep.
    destruct (leg_row airports col flight (o, d)); cbn; [|done].
    by rewrite push_rows_app.
Qed.

Lemma flight_step_pairs acc idx flight :
  flight_step cmap airports acc (idx, flight)
  = (mapM (leg_row airports (flight_color cmap idx) flight) (consecutive flight)
       ≫= λ rows, Ok (push_rows acc rows)).
Proof.
  unfold flight_step, range, len.
  rewrite segment_loop_pairs by lia.
  rewrite firstn_all2; [done|]. rewrite consecutive_length. lia.
Qed.

Lemma flights_loop_blocks flights acc :
  for_each (flight_step cmap airports) (enumerate flights) acc
  = (mapM (flight_rows cmap airports) (enumerate flights)
       ≫= λ blocks, Ok (push_rows acc (concat blocks))).
Proof.
  apply (for_each_mapM _ (flight_rows cmap airports) (λ s blocks, push_rows s (concat blocks))).
  - intros s. apply push_rows_nil.
  - intros s ys zs. by rewrite push_rows_app, concat_app.
  - intros s [idx flight]. rewrite flight_step_pairs. unfold flight_rows.
    cbn. destruct (mapM _ _); cbn; [|done]. by rewrite app_nil_r.
Qed.

Lemma airports_inv_init :
  airports_inv airports []
    {| airport_points := []; airport_codes := []; seen_codes := ∅ |}.
Proof.
  split; cbn.
  - constructor.
  - intros c. set_solver.
  - done.
  - constructor.
  - intros k c. by rewrite lookup_nil.
Qed.

Lemma airports_inv_known p acc c :
  airports_inv airports p acc → c ∈ p → is_Some (airports !! c).
Proof.
  intros Hinv Hc. apply (inv_codes _ _ _ Hinv) in Hc.
  apply list_elem_of_lookup in Hc as [k Hk].
  destruct (Forall2_lookup_l _ _ _ _ _ (inv_points _ _ _ Hinv) Hk)
    as (pt & _ & a & Ha & _).
  by exists a.
Qed.

Lemma code_step_unknown p acc c :
  airports_inv airports p acc → airports !! c = None →
  code_step airports acc c = Raise (KeyError c).
Proof.
  intros Hinv Hc. unfold code_step, lookup_airport.
  rewrite decide_True, Hc; [done|].
  intros Hseen%(inv_seen _ _ _ Hinv)%(inv_codes _ _ _ Hinv).
  destruct (airports_inv_known _ _ _ Hinv Hseen) as [a Ha]. congruence.
Qed.

Lemma code_step_known p acc c a :
  airports_inv airports p acc → airports !! c = Some a →
  ∃ acc', code_step airports acc c = Ok acc' ∧ airports_inv airports (p ++ [c]) acc'.
Proof.
  intros Hinv Ha. unfold code_step, lookup_airport.
  destruct (decide (c ∉ seen_codes acc)) as [Hnew|Hold].
  - rewrite Ha. cbn. eexists. split; [done|].
    assert (c ∉ airport_codes acc) as Hnc
      by (by rewrite <-(inv_seen _ _ _ Hinv)).
    split; cbn.
    + apply NoDup_app. split_and!; [apply Hinv| |apply NoDup_singleton].
      intros x Hx ->%list_elem_of_singleton. done.
    + intros x. rewrite elem_of_union, elem_of_singleton, elem_of_app,
        list_elem_of_singleton. by rewrite (inv_seen _ _ _ Hinv).
    + intros x. rewrite !elem_of_app, !list_elem_of_singleton.
      by rewrite (inv_codes _ _ _ Hinv).
    + apply Forall2_app; [apply Hinv|]. constructor; [|constructor].
      by exists a.
    + intros k x Hk. apply lookup_app_Some in Hk as [Hk|[Hlen Hk]].
      * destruct (inv_order _ _ _ Hinv k x Hk) as (p1 & p2 & -> & Hx & Htake).
        exists p1, (p2 ++ [c]). split; [by rewrite <-app_assoc|].
        split; [done|]. intros c'. rewrite take_app_le; [apply Htake|].
        apply lookup_lt_Some in Hk. lia.
      * apply list_lookup_singleton_Some in Hk as [Hk <-].
        assert (k = length (airport_codes acc)) as -> by lia.
        exists p, []. split; [done|]. split.
        { by rewrite <-(inv_codes _ _ _ Hinv). }
        intros c'. rewrite take_app_length. apply (inv_codes _ _ _ Hinv).
  - apply dec_stable in Hold. exists acc. split; [done|].
    assert (c ∈ p) as Hcp
      by (by apply (inv_codes _ _ _ Hinv), (inv_seen _ _ _ Hinv)).
    split.
    + apply Hinv.
    + apply Hinv.
    + intros x. rewrite elem_of_app, list_elem_of_singleton,
        (inv_codes _ _ _ Hinv). split; [by left|by intros [?| ->]].
    + apply Hinv.
    + intros k x Hk.
      destruct (inv_order _ _ _ Hinv k x Hk) as (p1 & p2 & -> & Hx & Htake).
      exists p1, (p2 ++ [c]). by rewrite <-app_assoc.
Qed.

(** The second loop either raises [KeyError] on an unknown code of its
    input, or extends the invariant to the whole input. *)
Lemma code_loop_spec l p acc :
  airports_inv airports p acc →
  match for_each (code_step airports) l acc with
  | Ok acc' => airports_inv airports (p ++ l) acc'
  | Raise e => ∃ c, e = KeyError c ∧ c ∈ l ∧ airports !! c = None
  end.
Proof.
  revert p acc. induction l as [|c l IH]; intros p acc Hinv; cbn.
  - by rewrite app_nil_r.
  - destruct (airports !! c) as [a|] eqn:Hc.
    + destruct (code_step_known _ _ _ _ Hinv Hc) as (acc' & -> & Hinv').
      cbn. specialize (IH _ _ Hinv'). rewrite <-app_assoc in IH. cbn in IH.
      destruct (for_each _ l acc'); [done|].
      destruct IH as (c' & ? & ? & ?). exists c'. split_and!; [done| |done].
      by right.
    + rewrite (code_step_unknown _ _ _ Hinv Hc). cbn.
      exists c. split_and!; [done| |done]. by left.
Qed.

Lemma leg_row_Raise col flight od e :
  leg_row airports col flight od = Raise e →
  ∃ c, e = KeyError c ∧ (c = od.1 ∨ c = od.2) ∧ airports !! c = None.
Proof.
  unfold leg_row, lookup_airport.
  destruct (airports !! od.1) eqn:H1; cbn.
  - destruct (airports !! od.2) eqn:H2; cbn; [done|].
    intros [= <-]. exists od.2. auto.
  - intros [= <-]. exists od.1. auto.
Qed.

(** The outcome of the route builder: the rows of all legs and the
    deduplicated airports, or [KeyError] on a code missing from the table. *)
Lemma prepare_flight_data_spec flights :
  match prepare_flight_data cmap airports flights with
  | Ok (flights_gdf, airports_gdf) =>
      ∃ blocks acc,
        blocks_of cmap airports flights blocks ∧ flights_gdf = concat blocks ∧
        airports_inv airports (concat flights) acc ∧
        airports_gdf = airports_frame (airport_codes acc) (airport_points acc)
  | Raise e =>
      ∃ flight c, e = KeyError c ∧ flight ∈ flights ∧ c ∈ flight ∧
                  airports !! c = None
  end.
Proof.
  unfold prepare_flight_data. rewrite flights_loop_blocks.
  destruct (mapM (flight_rows cmap airports) (enumerate flights)) as [blocks|e] eqn:Hblocks;
    cbn.
  - unfold airport_step. rewrite for_each_concat.
    pose proof (code_loop_spec (concat flights) [] _ airports_inv_init) as H.
    destruct (for_each _ (concat flights) _) as [acc|e]; cbn in *.
    + exists blocks, acc. split_and!; [|apply flights_frame_rows|done..].
      apply mapM_Ok in Hblocks. unfold blocks_of.
      eapply Forall2_impl; [exact Hblocks|]. intros entry block Hrows.
      by apply mapM_Ok.
    + destruct H as (c & -> & Hc & Hnone).
      apply elem_of_concat in Hc as (flight & ? & ?). by exists flight, c.
  - apply mapM_Raise in Hblocks as ([idx flight] & Hin & Hrows).
    apply mapM_Raise in Hrows as ([o d] & Hod & Hleg). cbn in *.
    apply leg_row_Raise in Hleg as (c & -> & Hc & Hnone).
    exists flight, c. split_and!; [done| | |done].
    + by apply elem_of_zip_r in Hin.
    + destruct Hc as [-> | ->]; cbn.
      * by apply elem_of_zip_l in Hod.
      * apply elem_of_zip_r in Hod. by eapply subseteq_drop.
Qed.

Lemma prepare_flight_data_total flights :
  all_known airports flights →
  ∃ flights_gdf airports_gdf,
    prepare_flight_data cmap airports flights = Ok (flights_gdf, airports_gdf).
Proof.
  intros Hknown. pose proof (prepare_flight_data_spec flights) as H.
  destruct (prepare_flight_data cmap airports flights) as [[fg ag]|e].
  - by exists fg, ag.
  - destruct H as (flight & c & _ & Hf & Hc & Hnone).
    destruct (Hknown flight c Hf Hc) as [a Ha]. congruence.
Qed.

End route_builder_facts.

(** ** Running the route builder on a given input *)

Lemma lookup_airport_Some airports c a :
  airports !! c = Some a → lookup_airport airports c = Ok a.
Proof. unfold lookup_airport. by intros ->. Qed.

Lemma code_step_new airports acc c a :
  c ∉ seen_codes acc → airports !! c = Some a →
  code_step airports acc c
  = Ok {| airport_points := airport_points acc ++ [(lon a, lat a)];
          airport_codes := airport_codes acc ++ [c];
          seen_codes := seen_codes acc ∪ {[c]} |}.
Proof.
  intros Hc Ha. unfold code_step.
  by rewrite decide_True, (lookup_airport_Some _ _ _ Ha).
Qed.

Lemma code_step_seen airports acc c :
  c ∈ seen_codes acc → code_step airports acc c = Ok acc.
Proof. intros Hc. unfold code_step. rewrite decide_False; [done|]. auto. Qed.

Lemma prepare_round_trip cmap airports a b :
  airports !! "PRG" = Some a → airports !! "LAS" = Some b →
  prepare_flight_data cmap airports [["PRG"; "LAS"]; ["LAS"; "PRG"]]
  = Ok ([ {| route := "PRG → LAS (part of PRG → LAS)";
             color := flight_color cmap 0;
             line := [(lon a, lat a); (lon b, lat b)] |};
          {| route := "LAS → PRG (part of LAS → PRG)";
             color := flight_color cmap 1;
             line := [(lon b, lat b); (lon a, lat a)] |} ],
        [ {| code := "PRG"; point := (lon a, lat a) |};
          {| code := "LAS"; point := (lon b, lat b) |} ]).
Proof.
  intros Ha Hb. unfold prepare_flight_data. rewrite flights_loop_blocks.
  pose proof (lookup_airport_Some _ _ _ Ha) as Ha'.
  pose proof (lookup_airport_Some _ _ _ Hb) as Hb'.
  cbn -[lookup_airport code_step flight_color]. unfold leg_row.
  cbn -[lookup_airport code_step flight_color]. rewrite !Ha', !Hb'.
  cbn -[lookup_airport code_step flight_color].
  rewrite (code_step_new _ _ "PRG" a) by (cbn; set_solver || done).
  cbn -[lookup_airport code_step flight_color].
  rewrite (code_step_new _ _ "LAS" b) by (cbn; set_solver || done).
  cbn -[lookup_airport code_step flight_color].
  rewrite (code_step_seen _ _ "LAS") by (cbn; set_solver).
  cbn -[lookup_airport code_step flight_color].
  rewrite (code_step_seen _ _ "PRG") by (cbn; set_solver).
  reflexivity.
Qed.

Lemma prepare_direct cmap airports a b :
  airports !! "PRG" = Some a → airports !! "LAS" = Some b →
  prepare_flight_data cmap airports [["PRG"; "LAS"]]
  = Ok ([ {| route := "PRG → LAS (part of PRG → LAS)";
             color := flight_color cmap 0;
             line := [(lon a, lat a); (lon b, lat b)] |} ],
        [ {| code := "PRG"; point := (lon a, lat a) |};
          {| code := "LAS"; point := (lon b, lat b) |} ]).
Proof.
  intros Ha Hb. unfold prepare_flight_data. rewrite flights_loop_blocks.
  pose proof (lookup_airport_Some _ _ _ Ha) as Ha'.
  pose proof (lookup_airport_Some _ _ _ Hb) as Hb'.
  cbn -[lookup_airport code_step flight_color]. unfold leg_row.
  cbn -[lookup_airport code_step flight_color]. rewrite !Ha', !Hb'.
  cbn -[lookup_airport code_step flight_color].
  rewrite (code_step_new _ _ "PRG" a) by (cbn; set_solver || done).
  cbn -[lookup_airport code_step flight_color].
  rewrite (code_step_new _ _ "LAS" b) by (cbn; set_solver || done).
  reflexivity.
Qed.

(** ** Reading the outcome of the route builder *)

Lemma enumerate_lookup {A} (l : list A) i j x :
  enumerate l !! i = Some (j, x) ↔ j = i ∧ l !! i = Some x.
Proof.
  unfold enumerate. rewrite lookup_zip_with_Some. split.
  - intros (j' & x' & [= <- <-] & Hj & Hx).
    apply lookup_seq in Hj as [-> _]. done.
  - intros [-> Hx]. exists i, x. split_and!; [done| |done].
    apply lookup_seq. split; [done|]. by apply lookup_lt_Some in Hx.
Qed.

Lemma enumerate_length {A} (l : list A) : length (enumerate l) = length l.
Proof. unfold enumerate. rewrite length_zip, length_seq. lia. Qed.

Lemma airports_frame_codes {P : string → Coord → Prop} codes points :
  Forall2 P codes points →
  code <$> airports_frame codes points = codes.
Proof. unfold airports_frame. induction 1; cbn; by f_equal. Qed.

Lemma airports_frame_rows {P : string → Coord → Prop} codes points row :
  Forall2 P codes points → row ∈ airports_frame codes points →
  P (code row) (point row).
Proof.
  unfold airports_frame. induction 1 as [|c pt cs pts Hc _ IH]; cbn.
  - by intros ?%elem_of_nil.
  - intros [->|?]%elem_of_cons; [done|auto].
Qed.

(** Position of [block !! j] in [concat blocks]. *)
Lemma concat_lookup_offset {A} (blocks : list (list A)) i block j x :
  blocks !! i = Some block → block !! j = Some x →
  concat blocks !! (sum_list (length <$> take i blocks) + j) = Some x.
Proof.
  revert i. induction blocks as [|b blocks IH]; intros i Hi Hj; [done|].
  destruct i as [|i]; cbn in *.
  - injection Hi as ->. by apply lookup_app_l_Some.
  - rewrite lookup_app_r by lia.
    replace (length b + sum_list (length <$> take i blocks) + j - length b)
      with (sum_list (length <$> take i blocks) + j) by lia.
    by apply IH.
Qed.

Section reading.
Variable cmap : Colormap.
Variable airports : gmap string Airport.

Lemma leg_row_Ok col flight o d row :
  leg_row airports col flight (o, d) = Ok row →
  ∃ ao ad, airports !! o = Some ao ∧ airports !! d = Some ad ∧
    row = {| route := segment_label o d (join arrow flight); color := col;
             line := [(lon ao, lat ao); (lon ad, lat ad)] |}.
Proof.
  unfold leg_row, lookup_airport. cbn.
  destruct (airports !! o) as [ao|]; cbn; [|done].
  destruct (airports !! d) as [ad|]; cbn; [|done].
  intros [= <-]. by exists ao, ad.
Qed.

Lemma blocks_of_length flights blocks :
  blocks_of cmap airports flights blocks → length blocks = length flights.
Proof.
  intros H%Forall2_length. by rewrite enumerate_length in H.
Qed.

Lemma blocks_of_lookup flights blocks i flight :
  blocks_of cmap airports flights blocks → flights !! i = Some flight →
  ∃ block, blocks !! i = Some block ∧
    Forall2 (λ od row,
               leg_row airports (flight_color cmap i) flight od = Ok row)
            (consecutive flight) block.
Proof.
  intros Hb Hi.
  assert (enumerate flights !! i = Some (i, flight)) as He
    by by apply enumerate_lookup.
  destruct (Forall2_lookup_l _ _ _ _ _ Hb He) as (block & ? & ?).
  by exists block.
Qed.

Lemma blocks_of_lengths flights blocks :
  blocks_of cmap airports flights blocks →
  length <$> blocks = (λ flight, length flight - 1) <$> flights.
Proof.
  intros Hb. apply list_eq. intros i. rewrite !list_lookup_fmap.
  destruct (flights !! i) as [flight|] eqn:Hi; cbn.
  - destruct (blocks_of_lookup _ _ _ _ Hb Hi) as (block & -> & Hrows).
    cbn. apply Forall2_length in Hrows.
    rewrite consecutive_length in Hrows. by rewrite Hrows.
  - apply lookup_ge_None in Hi. rewrite <-(blocks_of_length _ _ Hb) in Hi.
    apply lookup_ge_None in Hi. by rewrite Hi.
Qed.

Lemma blocks_of_offset flights blocks i :
  blocks_of cmap airports flights blocks →
  sum_list (length <$> take i blocks) = segments_before flights i.
Proof.
  intros Hb. unfold segments_before.
  by rewrite !fmap_take, (blocks_of_lengths _ _ Hb).
Qed.

Lemma all_known_Forall flights :
  Forall (Forall (λ c, is_Some (airports !! c))) flights →
  all_known airports flights.
Proof.
  intros H flight c Hf Hc. rewrite Forall_forall in H.
  specialize (H flight Hf). rewrite Forall_forall in H. auto.
Qed.

(** On an input whose codes are all known the builder returns, and its
    result is described by [blocks_of] and [airports_inv]. *)
Lemma prepare_flight_data_known flights :
  all_known airports flights →
  ∃ blocks acc,
    prepare_flight_data cmap airports flights
    = Ok (concat blocks,
          airports_frame (airport_codes acc) (airport_points acc)) ∧
    blocks_of cmap airports flights blocks ∧
    airports_inv airports (concat flights) acc.
Proof.
  intros Hknown.
  destruct (prepare_flight_data_total cmap _ _ Hknown) as (fg & ag & Hrun).
  pose proof (prepare_flight_data_spec cmap airports flights) as H.
  rewrite Hrun in H. destruct H as (blocks & acc & ? & -> & ? & ->).
  by exists blocks, acc.
Qed.

End reading.

(** ** The interactive map *)

Lemma omap_app {A B} (f : A → option B) (l1 l2 : list A) :
  omap f (l1 ++ l2) = omap f l1 ++ omap f l2.
Proof.
  induction l1 as [|x l1 IH]; cbn; [done|].
  destruct (f x); cbn; by rewrite IH.
Qed.

Lemma add_flight_paths rows m :
  let m' := fold_left add_flight_path rows m in
  location m' = location m ∧ zoom_start m' = zoom_start m ∧
  length (children m') = length (children m) + length rows ∧
  polylines m' = polylines m ++ ((λ row, (color row, route row)) <$> rows) ∧
  markers m' = markers m.
Proof.
  revert m. induction rows as [|row rows IH]; intros m; cbn.
  - by rewrite Nat.add_0_r, app_nil_r.
  - destruct (IH (add_flight_path m row)) as (-> & -> & -> & -> & ->).
    unfold polylines, markers, add_flight_path, add_to. cbn.
    rewrite !omap_app, length_app, <-app_assoc. cbn.
    rewrite app_nil_r. split_and!; [done..|lia|done|done].
Qed.

Lemma add_airports rows m :
  let m' := fold_left add_airport rows m in
  location m' = location m ∧ zoom_start m' = zoom_start m ∧
  length (children m') = length (children m) + length rows ∧
  polylines m' = polylines m ∧
  markers m' = markers m ++ (code <$> rows).
Proof.
  revert m. induction rows as [|row rows IH]; intros m; cbn.
  - by rewrite Nat.add_0_r, app_nil_r.
  - destruct (IH (add_airport m row)) as (-> & -> & -> & -> & ->).
    unfold polylines, markers, add_airport, add_to. cbn.
    rewrite !omap_app, length_app, <-app_assoc. cbn.
    rewrite app_nil_r. split_and!; [done..|lia|done|done].
Qed.

Lemma encode_utf8_nil s : encode_utf8 s = [] → s = "".
Proof. by destruct s. Qed.

(** ** The buffers across a run *)

Section orchestrator_facts.
Context {World PlatformFile : Type}.
Variable cmap : Colormap.
Variable airports : gmap string Airport.
Variable total_bounds : list (list Coord) → float * float * float * float.
Variable plot_png :
  World → list FlightRow → list AirportRow → float * float → float * float →
  result (list Byte.byte).
Variable render : FoliumMap → string.

Variable b64encode : list Byte.byte → string.
Variable File_create : string → list Byte.byte → string → result PlatformFile.
Variable from_client : result unit.
Variable agent_run : string → Run World.

Abbreviation visualize :=
  (visualize_flights cmap airports total_bounds plot_png render).
Abbreviation step_loop :=
  (loop_step (PlatformFile := PlatformFile)
             cmap airports total_bounds plot_png render).
Abbreviation sets_static' :=
  (sets_static cmap airports total_bounds plot_png).
Abbreviation sets_interactive' :=
  (sets_interactive cmap airports total_bounds plot_png render).
Abbreviation from_tool' :=
  (from_tool cmap airports total_bounds plot_png render
             b64encode File_create agent_run).
Abbreviation agent :=
  (flight_search_agent cmap airports total_bounds plot_png render
                       b64encode File_create from_client agent_run).

Lemma create_static_map_offline e flights_gdf airports_gdf :
  create_static_map total_bounds plot_png (Raise e) flights_gdf airports_gdf
  = Raise e.
Proof. done. Qed.

(** The tool either raises and leaves both buffers alone, or returns and
    has assigned both. *)
Lemma visualize_flights_cases flights read_file bufs :
  (∃ e, visualize flights read_file bufs = (Raise e, bufs)) ∨
  (∃ png html,
     visualize flights read_file bufs
     = (Ok (), {| static_png_bytes := Some png;
                  interactive_html_bytes := Some html |}) ∧
     sets_static' (CallVisualize flights read_file) png ∧
     sets_interactive' (CallVisualize flights read_file) html).
Proof.
  unfold visualize_flights.
  destruct (prepare_flight_data cmap airports flights) as [[fg ag]|e] eqn:Hp;
    [|left; by exists e].
  destruct (create_static_map _ _ read_file fg ag) as [png|e] eqn:Hs;
    [|left; by exists e].
  right. exists png, (create_interactive_map render fg ag).
  split; [done|]. split.
  - by exists flights, read_file, fg, ag.
  - by exists flights, read_file, fg, ag, png.
Qed.

(** Whatever the buffers hold after the loop was there before it or was
    assigned by an invocation of the tool; the loop yields the deltas it
    collects and nothing else. *)
Lemma loop_spec (run_steps : list (Step World)) (st : Loop) :
  let st' := fold_left step_loop run_steps st in
  (∀ png, static_png_bytes (buffers st') = Some png →
     static_png_bytes (buffers st) = Some png ∨
     ∃ step, step ∈ run_steps ∧ sets_static' step png) ∧
  (∀ html, interactive_html_bytes (buffers st') = Some html →
     interactive_html_bytes (buffers st) = Some html ∨
     ∃ step, step ∈ run_steps ∧ sets_interactive' step html) ∧
  (emitted st = YieldDelta <$> final_answer st →
   emitted st' = YieldDelta <$> final_answer st').
Proof.
  revert st. induction run_steps as [|step run_steps IH]; intros st; cbn.
  - auto.
  - destruct (IH (step_loop st step)) as (IHs & IHi & IHe).
    assert (∀ P : Step World → Prop,
              (∃ s, s ∈ run_steps ∧ P s) →
              ∃ s, s ∈ step :: run_steps ∧ P s) as Hlater.
    { intros P (s & ? & ?). exists s. split; [by right|done]. }
    destruct step as [[delta|]|flights read_file|]; cbn in *.
    + split_and!.
      * intros png [?|?]%IHs; auto.
      * intros html [?|?]%IHi; auto.
      * intros He. apply IHe. by rewrite He, fmap_app.
    + split_and!.
      * intros png [?|?]%IHs; auto.
      * intros html [?|?]%IHi; auto.
      * done.
    + destruct (visualize_flights_cases flights read_file (buffers st))
        as [[e Hv]|(png' & html' & Hv & Hs & Hi)]; rewrite Hv in *; cbn in *.
      * split_and!.
        -- intros png [?|?]%IHs; auto.
        -- intros html [?|?]%IHi; auto.
        -- done.
      * split_and!.
        -- intros png [[= <-]|?]%IHs; [|auto]. right.
           eexists. split; [by left|done].
        -- intros html [[= <-]|?]%IHi; [|auto]. right.
           eexists. split; [by left|done].
        -- done.
    + split_and!.
      * intros png [?|?]%IHs; auto.
      * intros html [?|?]%IHi; auto.
      * done.
Qed.

(** The shape of what the agent leaves behind: the deltas of the answer
    followed by file parts, each of which goes back to the tool; a final
    message is the joined answer followed by the same file parts. *)
Lemma agent_output_shape (input : list (Part PlatformFile)) :
  ∃ deltas files,
    yielded (agent input)
      = (YieldDelta <$> deltas) ++ ((λ f, YieldPart (FilePart f)) <$> files) ∧
    (∀ msg, final_message (agent input) = Some msg →
       msg = TextPart (String.concat "" deltas) :: (FilePart <$> files)) ∧
    Forall from_tool' files.
Proof.
  unfold flight_search_agent.
  destruct (input_text input) as [text|e]; [|by exists [], []].
  destruct from_client as [[]|e]; [|by exists [], []].
  set (prompt := "Search flights for the user query: " +:+ text).
  set (init := {| buffers := _; final_answer := []; emitted := [] |}).
  destruct (loop_spec (steps (agent_run prompt)) init) as (Hs & Hi & He).
  set (st := fold_left _ _ init) in *. cbn in Hs, Hi, He.
  specialize (He eq_refl).
  destruct (run_raised (agent_run prompt)) as [e|].
  { exists (final_answer st), []. cbn. by rewrite app_nil_r. }
  assert (∀ png, static_png_bytes (buffers st) = Some png →
            from_tool' (FileWithBytes (b64encode png) "image/png"
                                     "flights.png")) as Hpng.
  { intros png [[=]|(step & ? & ?)]%Hs. exists prompt, step.
    split; [done|]. left. by exists png. }
  assert (∀ html f, interactive_html_bytes (buffers st) = Some html →
            File_create "flights.html" html "text/html" = Ok f →
            from_tool' (Uploaded f)) as Hhtml.
  { intros html f [[=]|(step & ? & ?)]%Hi Hf. exists prompt, step.
    split; [done|]. right. by exists html, f. }
  destruct (static_png_bytes (buffers st)) as [png|];
    destruct (interactive_html_bytes (buffers st)) as [html|];
    try destruct (File_create "flights.html" html "text/html") as [f|e] eqn:Hf;
    cbn; rewrite He.
  - exists (final_answer st), [FileWithBytes (b64encode png) "image/png"
                                 "flights.png"; Uploaded f].
    cbn. rewrite <-!app_assoc. split_and!; [done| |].
    + by intros msg [= <-].
    + repeat constructor; eauto.
  - exists (final_answer st), [FileWithBytes (b64encode png) "image/png"
                                 "flights.png"].
    split_and!; [done..|]. repeat constructor; eauto.
  - exists (final_answer st), [FileWithBytes (b64encode png) "image/png"
                                 "flights.png"].
    split_and!; [done| |].
    + by intros msg [= <-].
    + repeat constructor; eauto.
  - exists (final_answer st), [Uploaded f]. split_and!; [done| |].
    + by intros msg [= <-].
    + repeat constructor; eauto.
  - exists (final_answer st), []. cbn. by rewrite app_nil_r.
  - exists (final_answer st), []. cbn. rewrite app_nil_r.
    split_and!; [done| |done]. by intros msg [= <-].
Qed.

(** Without a file part that goes back to the tool, the agent yields the
    deltas only and its final message is the text part alone. *)
Lemma agent_output_text_only (input : list (Part PlatformFile)) :
  (∀ file, ¬ from_tool' file) →
  (∀ y, y ∈ yielded (agent input) → ∃ delta, y = YieldDelta delta) ∧
  (∀ msg, final_message (agent input) = Some msg → ∃ text, msg = [TextPart text]).
Proof.
  intros Hnone.
  destruct (agent_output_shape input) as (deltas & files & Hy & Hmsg & Hfiles).
  destruct files as [|file files].
  - cbn in *. rewrite app_nil_r in Hy. split.
    + intros y. rewrite Hy. intros (delta & -> & _)%list_elem_of_fmap.
      by exists delta.
    + intros msg ->%Hmsg. by eexists.
  - apply Forall_cons in Hfiles as [Hfile _]. by apply Hnone in Hfile.
Qed.

End orchestrator_facts.

(** ** Properties of the route builder *)



(** C2: on itineraries whose codes all resolve, the airport points carry
    exactly the codes that occur in some itinerary, each once, in the order
    of their first occurrence: the code of point k first occurs in the
    input where exactly the codes of the points before k have been read.
    Each point has the coordinates of its code. In particular
    [[["PRG"; "LAS"]; ["LAS"; "PRG"]]] gives two segments and the two
    airport points "PRG", "LAS". *)
Theorem airport_points_first_seen cmap airports :
  (∀ flights, all_known airports flights →
     ∃ flights_gdf airports_gdf,
       prepare_flight_data cmap airports flights
         = Ok (flights_gdf, airports_gdf) ∧
       NoDup (code <$> airports_gdf) ∧
       (∀ c, c ∈ code <$> airports_gdf ↔ ∃ flight, flight ∈ flights ∧ c ∈ flight) ∧
       (∀ k c, (code <$> airports_gdf) !! k = Some c →
          ∃ p1 p2, concat flights = p1 ++ c :: p2 ∧ (c ∉ p1) ∧
                   ∀ c', c' ∈ take k (code <$> airports_gdf) ↔ c' ∈ p1) ∧
       (∀ row, row ∈ airports_gdf →
          ∃ a, airports !! code row = Some a ∧ point row = (lon a, lat a))) ∧
  (is_Some (airports !! "PRG") → is_Some (airports !! "LAS") →
     ∃ flights_gdf airports_gdf,
       prepare_flight_data cmap airports [["PRG"; "LAS"]; ["LAS"; "PRG"]]
         = Ok (flights_gdf, airports_gdf) ∧
       length flights_gdf = 2 ∧ length airports_gdf = 2 ∧
       code <$> airports_gdf = ["PRG"; "LAS"]).
Proof.
  split.
  - intros flights Hknown.
    destruct (prepare_flight_data_known cmap _ _ Hknown)
      as (blocks & acc & Hrun & _ & Hinv).
    eexists _, _. split; [exact Hrun|].
    rewrite (airports_frame_codes _ _ (inv_points _ _ _ Hinv)).
    split_and!.
    + apply Hinv.
    + intros c. rewrite (inv_codes _ _ _ Hinv). apply elem_of_concat.
    + apply Hinv.
    + intros row Hrow.
      apply (airports_frame_rows _ _ _ (inv_points _ _ _ Hinv) Hrow).
  - intros [a Ha] [b Hb]. eexists _, _.
    split; [apply (prepare_round_trip _ _ _ _ Ha Hb)|done].
Qed.

Lemma airport_points_first_seen_witness :
  (∃ flights_gdf airports_gdf,
     prepare_flight_data demo_cmap demo_airports
         [["PRG"; "LAS"; "JFK"]; ["LAS"; "PRG"]]
       = Ok (flights_gdf, airports_gdf) ∧
     NoDup (code <$> airports_gdf) ∧
     (∀ c, c ∈ code <$> airports_gdf ↔
           ∃ flight, flight ∈ [["PRG"; "LAS"; "JFK"]; ["LAS"; "PRG"]] ∧
                     c ∈ flight) ∧
     (∀ k c, (code <$> airports_gdf) !! k = Some c →
        ∃ p1 p2, ["PRG"; "LAS"; "JFK"; "LAS"; "PRG"] = p1 ++ c :: p2 ∧
                 (c ∉ p1) ∧
                 ∀ c', c' ∈ take k (code <$> airports_gdf) ↔ c' ∈ p1) ∧
     (∀ row, row ∈ airports_gdf →
        ∃ a, demo_airports !! code row = Some a ∧
             point row = (lon a, lat a))) ∧
  (∃ flights_gdf airports_gdf,
     prepare_flight_data demo_cmap demo_airports
         [["PRG"; "LAS"]; ["LAS"; "PRG"]]
       = Ok (flights_gdf, airports_gdf) ∧
     length flights_gdf = 2 ∧ length airports_gdf = 2 ∧
     code <$> airports_gdf = ["PRG"; "LAS"]).
Proof.
  destruct (airport_points_first_seen demo_cmap demo_airports) as [H1 H2].
  split.
  - apply (H1 [["PRG"; "LAS"; "JFK"]; ["LAS"; "PRG"]]).
    apply all_known_Forall.
    repeat (first [apply Forall_nil_2 | apply Forall_cons_2]);
      vm_compute; eexists; reflexivity.
  - apply H2; vm_compute; eexists; reflexivity.
Defined.

(** C3: when some itinerary holds a code that is missing from the airport
    table, the route builder raises [KeyError] for a missing code of the
    input and returns no geometry; in the tool the exception leaves
    [visualize_flights] before either renderer runs, both buffers keeping
    their values. *)
Theorem unknown_code_aborts cmap airports flights flight c :
  flight ∈ flights → c ∈ flight → airports !! c = None →
  ∃ flight' c',
    flight' ∈ flights ∧ c' ∈ flight' ∧ airports !! c' = None ∧
    prepare_flight_data cmap airports flights = Raise (KeyError c') ∧
    ∀ World total_bounds plot_png render (read_file : result World) bufs,
      visualize_flights cmap airports total_bounds plot_png render
        flights read_file bufs
      = (Raise (KeyError c'), bufs).
Proof.
  intros Hf Hc Hnone.
  pose proof (prepare_flight_data_spec cmap airports flights) as H.
  destruct (prepare_flight_data cmap airports flights) as [[fg ag]|e] eqn:Hrun.
  - destruct H as (blocks & acc & _ & _ & Hinv & _).
    destruct (airports_inv_known _ _ _ c Hinv) as [a Ha]; [|congruence].
    apply elem_of_concat. by exists flight.
  - destruct H as (flight' & c' & -> & Hf' & Hc' & Hnone').
    exists flight', c'. split_and!; [done..|].
    intros. unfold visualize_flights. by rewrite Hrun.
Qed.

Lemma unknown_code_aborts_witness :
  ∃ flight' c',
    flight' ∈ [["PRG"; "LAS"]; ["LAS"; "XXX"]] ∧ c' ∈ flight' ∧
    demo_airports !! c' = None ∧
    prepare_flight_data demo_cmap demo_airports
      [["PRG"; "LAS"]; ["LAS"; "XXX"]] = Raise (KeyError c') ∧
    ∀ World total_bounds plot_png render (read_file : result World) bufs,
      visualize_flights demo_cmap demo_airports total_bounds plot_png render
        [["PRG"; "LAS"]; ["LAS"; "XXX"]] read_file bufs
      = (Raise (KeyError c'), bufs).
Proof.
  apply (unknown_code_aborts demo_cmap demo_airports
           [["PRG"; "LAS"]; ["LAS"; "XXX"]] ["LAS"; "XXX"] "XXX").
  - right. left.
  - right. left.
  - vm_compute. reflexivity.
Defined.

(** C5: the colour of an itinerary is the palette entry at its index modulo
    the palette size C, so indices that agree modulo C, and in particular
    indices that differ by a multiple of C, get the same colour; and in the
    result of the route builder every segment of the itinerary at index i
    has the colour of index i. *)
Theorem color_by_index_mod_palette cmap airports :
  let C := Pos.to_nat (cmap_N cmap) in
  (∀ i, flight_color cmap i = cmap_hex cmap (i mod C)) ∧
  (∀ i j, i mod C = j mod C → flight_color cmap i = flight_color cmap j) ∧
  (∀ i k, flight_color cmap (i + k * C) = flight_color cmap i) ∧
  (∀ flights, all_known airports flights →
     ∃ flights_gdf airports_gdf blocks,
       prepare_flight_data cmap airports flights
         = Ok (flights_gdf, airports_gdf) ∧
       flights_gdf = concat blocks ∧
       ∀ i flight, flights !! i = Some flight →
         ∃ block, blocks !! i = Some block ∧
           length block = length flight - 1 ∧
           ∀ row, row ∈ block → color row = flight_color cmap i).
Proof.
  intros C. split_and!.
  - done.
  - intros i j Hij. unfold flight_color. fold C. by rewrite Hij.
  - intros i k. unfold flight_color. fold C.
    by rewrite Nat.Div0.mod_add.
  - intros flights Hknown.
    destruct (prepare_flight_data_known cmap _ _ Hknown)
      as (blocks & acc & Hrun & Hblocks & _).
    eexists _, _, blocks. split; [exact Hrun|]. split; [done|].
    intros i flight Hi.
    destruct (blocks_of_lookup _ _ _ _ _ _ Hblocks Hi) as (block & Hb & Hrows).
    exists block. split; [done|]. split.
    + apply Forall2_length in Hrows.
      by rewrite consecutive_length in Hrows.
    + intros row [j Hj]%list_elem_of_lookup.
      destruct (Forall2_lookup_r _ _ _ _ _ Hrows Hj) as ([o d] & _ & Hleg).
      by apply leg_row_Ok in Hleg as (ao & ad & _ & _ & ->).
Qed.

Lemma color_by_index_mod_palette_witness :
  flight_color demo_cmap 1 = flight_color demo_cmap 21 ∧
  ∃ flights_gdf airports_gdf blocks,
    prepare_flight_data demo_cmap demo_airports
        [["PRG"; "LAS"; "JFK"]; ["JFK"; "PRG"]]
      = Ok (flights_gdf, airports_gdf) ∧
    flights_gdf = concat blocks ∧
    ∀ i flight, [["PRG"; "LAS"; "JFK"]; ["JFK"; "PRG"]] !! i = Some flight →
      ∃ block, blocks !! i = Some block ∧
        length block = length flight - 1 ∧
        ∀ row, row ∈ block → color row = flight_color demo_cmap i.
Proof.
  destruct (color_by_index_mod_palette demo_cmap demo_airports)
    as (_ & Hmod & _ & Hsegs).
  split.
  - apply Hmod. reflexivity.
  - apply Hsegs. apply all_known_Forall.
    repeat (first [apply Forall_nil_2 | apply Forall_cons_2]);
      vm_compute; eexists; reflexivity.
Defined.



(** C9: with "PRG" and "LAS" in the airport table, the input
    [[["PRG"; "LAS"]]] yields exactly one segment and exactly two airport
    points, whose codes are "PRG" and "LAS". *)
Theorem prepare_single_direct_flight cmap airports :
  is_Some (airports !! "PRG") → is_Some (airports !! "LAS") →
  ∃ flights_gdf airports_gdf,
    prepare_flight_data cmap airports [["PRG"; "LAS"]]
      = Ok (flights_gdf, airports_gdf)
    ∧ length flights_gdf = 1
    ∧ length airports_gdf = 2
    ∧ code <$> airports_gdf = ["PRG"; "LAS"].
Proof.
  intros [a Ha] [b Hb]. eexists _, _.
  split; [apply (prepare_direct _ _ _ _ Ha Hb)|done].
Qed.

Lemma prepare_single_direct_flight_witness :
  ∃ flights_gdf airports_gdf,
    prepare_flight_data demo_cmap demo_airports [["PRG"; "LAS"]]
      = Ok (flights_gdf, airports_gdf)
    ∧ length flights_gdf = 1
    ∧ length airports_gdf = 2
    ∧ code <$> airports_gdf = ["PRG"; "LAS"].
Proof.
  apply (prepare_single_direct_flight demo_cmap demo_airports);
    vm_compute; eexists; reflexivity.
Defined.

(** ** Properties of the renderers *)

(** C8: the buffer returned by the interactive renderer is the encoded
    serialisation of a map that holds, in this order, one poly-line per
    segment, with the colour of the segment and its label as tooltip, and
    one marker per airport point, with its code as tooltip, and nothing
    else; the buffer is not empty when folium's serialisation never is. *)
Theorem interactive_map_constructs render flights_gdf airports_gdf :
  ∃ m,
    create_interactive_map render flights_gdf airports_gdf
      = encode_utf8 (render m) ∧
    polylines m = (λ row, (color row, route row)) <$> flights_gdf ∧
    markers m = code <$> airports_gdf ∧
    length (children m) = length flights_gdf + length airports_gdf ∧
    ((∀ m', render m' ≠ "") →
     create_interactive_map render flights_gdf airports_gdf ≠ []).
Proof.
  unfold create_interactive_map.
  set (m0 := {| location := _; zoom_start := 2; children := [] |}).
  destruct (add_flight_paths flights_gdf m0) as (_ & _ & Hlen1 & Hp1 & Hm1).
  destruct (add_airports airports_gdf (fold_left add_flight_path flights_gdf m0))
    as (_ & _ & Hlen2 & Hp2 & Hm2).
  eexists. split; [reflexivity|]. split_and!.
  - by rewrite Hp2, Hp1.
  - by rewrite Hm2, Hm1.
  - by rewrite Hlen2, Hlen1.
  - intros Hrender Hnil%encode_utf8_nil. by apply Hrender in Hnil.
Qed.

Lemma interactive_map_constructs_witness :
  ∃ m,
    create_interactive_map demo_render
        [ {| route := "PRG → LAS (part of PRG → LAS)"; color := "#1f77b4";
             line := [(14.26, 50.1008); (-115.152, 36.08)]%float |} ]
        [ {| code := "PRG"; point := (14.26, 50.1008)%float |};
          {| code := "LAS"; point := (-115.152, 36.08)%float |} ]
      = encode_utf8 (demo_render m) ∧
    polylines m = [("#1f77b4", "PRG → LAS (part of PRG → LAS)")] ∧
    markers m = ["PRG"; "LAS"] ∧
    length (children m) = 3 ∧
    create_interactive_map demo_render
        [ {| route := "PRG → LAS (part of PRG → LAS)"; color := "#1f77b4";
             line := [(14.26, 50.1008); (-115.152, 36.08)]%float |} ]
        [ {| code := "PRG"; point := (14.26, 50.1008)%float |};
          {| code := "LAS"; point := (-115.152, 36.08)%float |} ]
      ≠ [].
Proof.
  destruct (interactive_map_constructs demo_render
    [ {| route := "PRG → LAS (part of PRG → LAS)"; color := "#1f77b4";
         line := [(14.26, 50.1008); (-115.152, 36.08)]%float |} ]
    [ {| code := "PRG"; point := (14.26, 50.1008)%float |};
      {| code := "LAS"; point := (-115.152, 36.08)%float |} ])
    as (m & Hbuf & Hp & Hm & Hlen & Hne).
  exists m. split_and!; [done..|].
  apply Hne. intros m'. discriminate.
Defined.

(** ** Properties of the orchestrator *)

Section orchestrator_properties.
Context {World PlatformFile : Type}.
Variable cmap : Colormap.
Variable airports : gmap string Airport.
Variable total_bounds : list (list Coord) → float * float * float * float.
Variable plot_png :
  World → list FlightRow → list AirportRow → float * float → float * float →
  result (list Byte.byte).
Variable render : FoliumMap → string.
Variable b64encode : list Byte.byte → string.
Variable File_create : string → list Byte.byte → string → result PlatformFile.
Variable from_client : result unit.
Variable agent_run : string → Run World.



End orchestrator_properties.




(** * Further properties *)

(** ** Counting and locating what the route builder returns *)

Lemma length_concat_sum {A} (ls : list (list A)) :
  length (concat ls) = sum_list (length <$> ls).
Proof.
  induction ls as [|l ls IH]; cbn; [done|]. by rewrite length_app, IH.
Qed.

Lemma airports_frame_lookup {P : string → Coord → Prop} codes points c :
  Forall2 P codes points → c ∈ codes →
  ∃ row, row ∈ airports_frame codes points ∧ code row = c ∧
         P c (point row).
Proof.
  unfold airports_frame. induction 1 as [|c' pt cs pts Hc _ IH]; cbn.
  - by intros ?%elem_of_nil.
  - intros [->|Hin]%elem_of_cons.
    + eexists. split; [by left|done].
    + destruct (IH Hin) as (row & ? & ? & ?). exists row.
      split; [by right|done].
Qed.

(** X1: on itineraries whose codes all resolve, the number of segments is
    the sum over the itineraries of their length less one (none for an
    empty itinerary); when no itinerary is empty, segments and itineraries
    together are as many as the waypoints. *)
Theorem segment_count cmap airports flights :
  all_known airports flights →
  ∃ flights_gdf airports_gdf,
    prepare_flight_data cmap airports flights
      = Ok (flights_gdf, airports_gdf) ∧
    length flights_gdf = sum_list ((λ flight, length flight - 1) <$> flights) ∧
    (Forall (λ flight, flight ≠ []) flights →
     length flights_gdf + length flights = length (concat flights)).
Proof.
  intros Hknown.
  destruct (prepare_flight_data_known cmap _ _ Hknown)
    as (blocks & acc & Hrun & Hblocks & _).
  eexists _, _. split; [exact Hrun|].
  rewrite length_concat_sum, (blocks_of_lengths _ _ _ _ Hblocks). split; [done|].
  clear. induction 1 as [|flight flights Hne _ IH]; cbn; [done|].
  rewrite length_app. destruct flight; [done|]. cbn in *. lia.
Qed.

Lemma segment_count_witness :
  ∃ flights_gdf airports_gdf,
    prepare_flight_data demo_cmap demo_airports
        [["PRG"; "LAS"; "JFK"]; ["JFK"]; ["LAS"; "PRG"]]
      = Ok (flights_gdf, airports_gdf) ∧
    length flights_gdf = 3 ∧
    (Forall (λ flight, flight ≠ [])
            [["PRG"; "LAS"; "JFK"]; ["JFK"]; ["LAS"; "PRG"]] →
     length flights_gdf + 3 = 6).
Proof.
  apply (segment_count demo_cmap demo_airports
           [["PRG"; "LAS"; "JFK"]; ["JFK"]; ["LAS"; "PRG"]]).
  apply all_known_Forall.
  repeat (first [apply Forall_nil_2 | apply Forall_cons_2]);
    vm_compute; eexists; reflexivity.
Defined.

(** X2: on itineraries whose codes all resolve, there are as many airport
    points as there are different codes among the waypoints, hence at most
    as many as waypoints. *)
Theorem airport_count cmap airports flights :
  all_known airports flights →
  ∃ flights_gdf airports_gdf,
    prepare_flight_data cmap airports flights
      = Ok (flights_gdf, airports_gdf) ∧
    length airports_gdf
      = size (list_to_set (concat flights) : gset string) ∧
    length airports_gdf ≤ length (concat flights).
Proof.
  intros Hknown.
  destruct (prepare_flight_data_known cmap _ _ Hknown)
    as (blocks & acc & Hrun & _ & Hinv).
  eexists _, _. split; [exact Hrun|].
  pose proof (airports_frame_codes _ _ (inv_points _ _ _ Hinv)) as Hcodes.
  assert (length (airports_frame (airport_codes acc) (airport_points acc))
          = size (list_to_set (concat flights) : gset string)) as Hsize.
  { rewrite <-(length_fmap code), Hcodes.
    rewrite <-(size_list_to_set (C := gset string)) by apply Hinv.
    f_equal. apply set_eq. intros c. rewrite !elem_of_list_to_set.
    apply Hinv. }
  split; [done|]. rewrite <-(length_fmap code), Hcodes.
  apply submseteq_length, NoDup_submseteq; [apply Hinv|].
  intros c. apply Hinv.
Qed.

Lemma airport_count_witness :
  ∃ flights_gdf airports_gdf,
    prepare_flight_data demo_cmap demo_airports
        [["PRG"; "LAS"; "JFK"]; ["JFK"]; ["LAS"; "PRG"]]
      = Ok (flights_gdf, airports_gdf) ∧
    length airports_gdf
      = size (list_to_set ["PRG"; "LAS"; "JFK"; "JFK"; "LAS"; "PRG"]
                : gset string) ∧
    length airports_gdf ≤ 6.
Proof.
  apply (airport_count demo_cmap demo_airports
           [["PRG"; "LAS"; "JFK"]; ["JFK"]; ["LAS"; "PRG"]]).
  apply all_known_Forall.
  repeat (first [apply Forall_nil_2 | apply Forall_cons_2]);
    vm_compute; eexists; reflexivity.
Defined.



(** ** When and how the route builder fails *)

(** X4: the route builder returns exactly when every code of every
    itinerary is in the airport table, and whatever it raises is the
    [KeyError] of a code of the input that the table does not hold; the
    index arithmetic of its first loop never raises. *)
Theorem prepare_flight_data_outcome cmap airports flights :
  (all_known airports flights ↔
   ∃ flights_gdf airports_gdf,
     prepare_flight_data cmap airports flights
       = Ok (flights_gdf, airports_gdf)) ∧
  (∀ e, prepare_flight_data cmap airports flights = Raise e →
     ∃ flight c, flight ∈ flights ∧ c ∈ flight ∧ airports !! c = None ∧
                 e = KeyError c).
Proof.
  pose proof (prepare_flight_data_spec cmap airports flights) as H.
  split; [split|].
  - apply prepare_flight_data_total.
  - intros (fg & ag & Hrun). rewrite Hrun in H.
    destruct H as (blocks & acc & _ & _ & Hinv & _).
    intros flight c Hf Hc. apply (airports_inv_known _ _ _ _ Hinv).
    apply elem_of_concat. by exists flight.
  - intros e Hrun. rewrite Hrun in H.
    destruct H as (flight & c & -> & ? & ? & ?). by exists flight, c.
Qed.

Lemma prepare_flight_data_outcome_witness :
  (∃ flights_gdf airports_gdf,
     prepare_flight_data demo_cmap demo_airports [["PRG"; "LAS"]; ["JFK"]]
       = Ok (flights_gdf, airports_gdf)) ∧
  (∃ flight c, flight ∈ [["PRG"; "XXX"]] ∧ c ∈ flight ∧
               demo_airports !! c = None ∧ KeyError "XXX" = KeyError c).
Proof.
  split.
  - apply (prepare_flight_data_outcome demo_cmap demo_airports
             [["PRG"; "LAS"]; ["JFK"]]).
    apply all_known_Forall.
    repeat (first [apply Forall_nil_2 | apply Forall_cons_2]);
      vm_compute; eexists; reflexivity.
  - apply (prepare_flight_data_outcome demo_cmap demo_airports
             [["PRG"; "XXX"]]).
    vm_compute. reflexivity.
Defined.

Lemma first_unknown_app airports l1 l2 :
  first_unknown airports (l1 ++ l2)
  = match first_unknown airports l1 with
    | Some c => Some c
    | None => first_unknown airports l2
    end.
Proof.
  induction l1 as [|c l1 IH]; cbn; [done|]. by destruct (airports !! c).
Qed.

Lemma first_unknown_None airports l :
  first_unknown airports l = None ↔ ∀ c, c ∈ l → is_Some (airports !! c).
Proof.
  induction l as [|c l IH]; cbn.
  - split; [by intros _ ? ?%elem_of_nil|done].
  - destruct (airports !! c) as [a|] eqn:Hc.
    + rewrite IH. split.
      * intros H c' [->|?]%elem_of_cons; [by exists a|auto].
      * intros H c' ?. apply H. by right.
    + split; [done|]. intros H. destruct (H c) as [a Ha]; [by left|].
      congruence.
Qed.

Lemma leg_row_cases airports col full a b :
  leg_row airports col full (a, b)
  = match airports !! a, airports !! b with
    | None, _ => Raise (KeyError a)
    | Some _, None => Raise (KeyError b)
    | Some o, Some d =>
        Ok {| route := segment_label a b (join arrow full); color := col;
              line := [(lon o, lat o); (lon d, lat d)] |}
    end.
Proof.
  unfold leg_row, lookup_airport. cbn.
  destruct (airports !! a); cbn; [|done]. by destruct (airports !! b).
Qed.

(** The legs of an itinerary fail on its first unknown code. *)
Lemma legs_first_unknown airports col full a rest :
  rest ≠ [] →
  match first_unknown airports (a :: rest) with
  | Some c =>
      mapM (leg_row airports col full) (consecutive (a :: rest))
      = Raise (KeyError c)
  | None =>
      ∃ rows, mapM (leg_row airports col full) (consecutive (a :: rest))
              = Ok rows
  end.
Proof.
  revert a. induction rest as [|b rest IH]; intros a Hne; [done|].
  change (consecutive (a :: b :: rest)) with ((a, b) :: consecutive (b :: rest)).
  change (mapM ?f ((a, b) :: ?l))
    with (f (a, b) ≫= λ y, mapM f l ≫= λ k, Ok (y :: k)).
  rewrite leg_row_cases. cbn [first_unknown].
  destruct (airports !! a) as [ao|] eqn:Ha; [|done].
  destruct (airports !! b) as [bo|] eqn:Hb; [|done].
  destruct rest as [|b' rest].
  - cbn. by eexists.
  - specialize (IH b ltac:(done)).
    assert (first_unknown airports (b :: b' :: rest)
            = first_unknown airports (b' :: rest)) as Hskip
      by (cbn [first_unknown]; by rewrite Hb).
    rewrite Hskip in IH.
    destruct (first_unknown airports (b' :: rest)) as [c|].
    + by rewrite IH.
    + destruct IH as [rows ->]. cbn. by eexists.
Qed.

Lemma flight_rows_first_unknown cmap airports idx flight :
  if decide (2 ≤ length flight) then
    match first_unknown airports flight with
    | Some c => flight_rows cmap airports (idx, flight) = Raise (KeyError c)
    | None => ∃ rows, flight_rows cmap airports (idx, flight) = Ok rows
    end
  else flight_rows cmap airports (idx, flight) = Ok [].
Proof.
  unfold flight_rows. cbn [fst snd]. case_decide as Hlen.
  - destruct flight as [|a [|b rest]]; cbn in Hlen; [lia..|].
    by apply legs_first_unknown.
  - destruct flight as [|a [|b rest]]; cbn in Hlen; [done..|lia].
Qed.

(** The first loop fails on the first unknown code of the itineraries that
    have a leg. *)
Lemma blocks_first_unknown cmap airports (entries : list (nat * list string)) :
  match first_unknown airports (concat (with_legs (entries.*2))) with
  | Some c => mapM (flight_rows cmap airports) entries = Raise (KeyError c)
  | None => ∃ blocks, mapM (flight_rows cmap airports) entries = Ok blocks
  end.
Proof.
  induction entries as [|[idx flight] entries IH].
  - cbn. by eexists.
  - change (mapM ?f ((idx, flight) :: ?l))
      with (f (idx, flight) ≫= λ y, mapM f l ≫= λ k, Ok (y :: k)).
    pose proof (flight_rows_first_unknown cmap airports idx flight) as Hf.
    unfold with_legs in *. cbn [fmap list_fmap snd].
    rewrite filter_cons. case_decide as Hlen.
    + cbn [concat]. rewrite first_unknown_app.
      destruct (first_unknown airports flight) as [c|]; [by rewrite Hf|].
      destruct Hf as [rows ->]. cbn.
      destruct (first_unknown airports _) as [c|].
      * by rewrite IH.
      * destruct IH as [blocks ->]. cbn. by eexists.
    + rewrite Hf. cbn.
      destruct (first_unknown airports _) as [c|].
      * by rewrite IH.
      * destruct IH as [blocks ->]. cbn. by eexists.
Qed.

(** The second loop fails on the first unknown code it reads. *)
Lemma code_loop_first_unknown airports l p acc c :
  airports_inv airports p acc → first_unknown airports l = Some c →
  for_each (code_step airports) l acc = Raise (KeyError c).
Proof.
  revert p acc. induction l as [|c' l IH]; intros p acc Hinv; cbn; [done|].
  destruct (airports !! c') as [a|] eqn:Hc'.
  - intros Hl.
    destruct (code_step_known _ _ _ _ _ Hinv Hc') as (acc' & -> & Hinv').
    cbn. by eapply IH.
  - intros [= <-]. by rewrite (code_step_unknown _ _ _ _ Hinv Hc').
Qed.

Lemma enumerate_snd {A} (l : list A) : (enumerate l).*2 = l.
Proof. unfold enumerate. apply snd_zip. by rewrite length_seq. Qed.

(** X5: which code the [KeyError] names. The first loop reads only the
    itineraries that have a leg, so the error names the first unknown code
    of those itineraries, in input order; only when they hold none does it
    name the first unknown code of the whole input, which then sits in an
    itinerary of a single waypoint. *)
Theorem key_error_names_first_unknown cmap airports flights c :
  (first_unknown airports (concat (with_legs flights)) = Some c →
   prepare_flight_data cmap airports flights = Raise (KeyError c)) ∧
  (first_unknown airports (concat (with_legs flights)) = None →
   first_unknown airports (concat flights) = Some c →
   prepare_flight_data cmap airports flights = Raise (KeyError c)).
Proof.
  pose proof (blocks_first_unknown cmap airports (enumerate flights)) as H.
  rewrite enumerate_snd in H.
  unfold prepare_flight_data. rewrite flights_loop_blocks. split.
  - intros Hc. rewrite Hc in H. by rewrite H.
  - intros Hnone Hc. rewrite Hnone in H. destruct H as [blocks ->]. cbn.
    unfold airport_step. rewrite for_each_concat.
    by rewrite (code_loop_first_unknown _ _ [] _ c (airports_inv_init _)).
Qed.

Lemma key_error_names_first_unknown_witness :
  prepare_flight_data demo_cmap demo_airports
    [["XXX"]; ["PRG"; "YYY"; "LAS"]; ["ZZZ"; "PRG"]] = Raise (KeyError "YYY") ∧
  prepare_flight_data demo_cmap demo_airports
    [["PRG"; "LAS"]; ["XXX"]; ["YYY"]] = Raise (KeyError "XXX").
Proof.
  split.
  - apply (proj1 (key_error_names_first_unknown demo_cmap demo_airports
                    [["XXX"]; ["PRG"; "YYY"; "LAS"]; ["ZZZ"; "PRG"]] "YYY")).
    vm_compute. reflexivity.
  - apply (proj2 (key_error_names_first_unknown demo_cmap demo_airports
                    [["PRG"; "LAS"]; ["XXX"]; ["YYY"]] "XXX"));
      vm_compute; reflexivity.
Defined.

(** ** What the result depends on *)

(** The route builder as its two loops in closed form. *)
Lemma prepare_flight_data_loops cmap airports flights :
  prepare_flight_data cmap airports flights
  = (mapM (flight_rows cmap airports) (enumerate flights) ≫= λ blocks,
     for_each (code_step airports) (concat flights)
       {| airport_points := []; airport_codes := []; seen_codes := ∅ |}
     ≫= λ aps,
     Ok (concat blocks,
         airports_frame (airport_codes aps) (airport_points aps))).
Proof.
  unfold prepare_flight_data. rewrite flights_loop_blocks.
  destruct (mapM _ (enumerate flights)) as [blocks|e]; cbn; [|done].
  unfold airport_step. rewrite for_each_concat.
  destruct (for_each _ (concat flights) _) as [aps|e]; cbn; [|done].
  do 2 f_equal. apply flights_frame_rows.
Qed.

Lemma legs_uncolored airports c1 c2 flight l :
  fmap uncolored <$> mapM (leg_row airports c1 flight) l
  = fmap uncolored <$> mapM (leg_row airports c2 flight) l.
Proof.
  induction l as [|[a b] l IH]; [done|].
  change (mapM ?f ((a, b) :: ?l))
    with (f (a, b) ≫= λ y, mapM f l ≫= λ k, Ok (y :: k)).
  rewrite !leg_row_cases.
  destruct (airports !! a); [|done]. destruct (airports !! b); [|done].
  cbn. destruct (mapM (leg_row airports c1 flight) l) as [rows1|e1],
         (mapM (leg_row airports c2 flight) l) as [rows2|e2];
    cbn in *; try done.
  injection IH as IH. by rewrite IH.
Qed.

Lemma blocks_uncolored cmap1 cmap2 airports entries :
  (λ blocks, uncolored <$> concat blocks)
    <$> mapM (flight_rows cmap1 airports) entries
  = (λ blocks, uncolored <$> concat blocks)
    <$> mapM (flight_rows cmap2 airports) entries.
Proof.
  induction entries as [|[idx flight] entries IH]; [done|].
  change (mapM ?f ((idx, flight) :: ?l))
    with (f (idx, flight) ≫= λ y, mapM f l ≫= λ k, Ok (y :: k)).
  set (r1 := flight_rows cmap1 airports (idx, flight)).
  set (r2 := flight_rows cmap2 airports (idx, flight)).
  assert (fmap uncolored <$> r1 = fmap uncolored <$> r2) as Hl
    by apply legs_uncolored.
  set (m1 := mapM (flight_rows cmap1 airports) entries) in *.
  set (m2 := mapM (flight_rows cmap2 airports) entries) in *.
  clearbody r1 r2 m1 m2.
  destruct r1 as [rows1|e1], r2 as [rows2|e2]; try done.
  injection Hl as Hl.
  destruct m1 as [bs1|e1'], m2 as [bs2|e2']; try done.
  injection IH as IH. cbn. by rewrite !fmap_app, Hl, IH.
Qed.

(** X6: the palette decides the colours and nothing else: with another
    palette the route builder fails with the same exception or returns the
    same airport points and segments with the same labels and lines, in
    the same order. *)
Theorem palette_changes_colours_only cmap1 cmap2 airports flights :
  without_colours <$> prepare_flight_data cmap1 airports flights
  = without_colours <$> prepare_flight_data cmap2 airports flights.
Proof.
  rewrite !prepare_flight_data_loops.
  pose proof (blocks_uncolored cmap1 cmap2 airports (enumerate flights)) as Hb.
  destruct (mapM (flight_rows cmap1 airports) _) as [bs1|e1],
    (mapM (flight_rows cmap2 airports) _) as [bs2|e2]; cbn in *; try done.
  - injection Hb as Hb.
    destruct (for_each _ (concat flights) _) as [aps|e]; cbn; [|done].
    unfold without_colours. cbn. by rewrite Hb.
  - by injection Hb as ->.
Qed.

(** X7: the airport points depend on the sequence of waypoints and not on
    where one itinerary ends and the next begins: two inputs with the same
    waypoints in the same order, all known, give the same airport
    points. *)
Theorem airport_points_ignore_itinerary_bounds cmap airports flights1 flights2 :
  concat flights1 = concat flights2 →
  all_known airports flights1 →
  ∃ segments1 segments2 airports_gdf,
    prepare_flight_data cmap airports flights1 = Ok (segments1, airports_gdf) ∧
    prepare_flight_data cmap airports flights2 = Ok (segments2, airports_gdf).
Proof.
  intros Hsame Hknown1.
  assert (all_known airports flights2) as Hknown2.
  { intros flight c Hf Hc.
    assert (c ∈ concat flights1) as (flight1 & ? & ?)%elem_of_concat.
    { rewrite Hsame. apply elem_of_concat. by exists flight. }
    by apply (Hknown1 flight1). }
  destruct (prepare_flight_data_total cmap _ _ Hknown1) as (fg1 & ag1 & H1).
  destruct (prepare_flight_data_total cmap _ _ Hknown2) as (fg2 & ag2 & H2).
  exists fg1, fg2, ag1. split; [done|]. rewrite H2. do 2 f_equal.
  rewrite prepare_flight_data_loops in H1, H2. rewrite Hsame in H1.
  destruct (mapM _ (enumerate flights1)); cbn in H1; [|done].
  destruct (mapM _ (enumerate flights2)); cbn in H2; [|done].
  destruct (for_each _ (concat flights2) _); cbn in H1, H2; [|done].
  congruence.
Qed.

Lemma airport_points_ignore_itinerary_bounds_witness :
  ∃ segments1 segments2 airports_gdf,
    prepare_flight_data demo_cmap demo_airports
      [["PRG"; "LAS"; "JFK"]; ["LAS"]] = Ok (segments1, airports_gdf) ∧
    prepare_flight_data demo_cmap demo_airports
      [["PRG"]; ["LAS"; "JFK"; "LAS"]] = Ok (segments2, airports_gdf).
Proof.
  apply (airport_points_ignore_itinerary_bounds demo_cmap demo_airports
           [["PRG"; "LAS"; "JFK"]; ["LAS"]] [["PRG"]; ["LAS"; "JFK"; "LAS"]]).
  - reflexivity.
  - apply all_known_Forall.
    repeat (first [apply Forall_nil_2 | apply Forall_cons_2]);
      vm_compute; eexists; reflexivity.
Defined.

(** ** Putting two inputs together *)

Lemma elem_of_nub c l : c ∈ nub l ↔ c ∈ l.
Proof.
  induction l as [|c' l IH]; cbn; [done|].
  rewrite !elem_of_cons, list_elem_of_filter, IH.
  destruct (decide (c = c')) as [->|]; naive_solver.
Qed.

Lemma filter_all {A} (P : A → Prop) `{!∀ x, Decision (P x)} (l : list A) :
  (∀ x, P x) → filter P l = l.
Proof.
  intros HP. induction l as [|x l IH]; [done|].
  by rewrite filter_cons_True, IH.
Qed.

Lemma nub_app l1 l2 :
  nub (l1 ++ l2) = nub l1 ++ filter (λ c, c ∉ l1) (nub l2).
Proof.
  induction l1 as [|c l1 IH]; cbn.
  - rewrite filter_all; [done|]. by intros x ?%elem_of_nil.
  - f_equal. rewrite IH, filter_app, list_filter_filter. f_equal.
    apply list_filter_iff. intros x. rewrite not_elem_of_cons. tauto.
Qed.

Lemma filter_fmap_list {A B} (f : A → B) (P : B → Prop)
    `{!∀ y, Decision (P y)} (l : list A) :
  filter P (f <$> l) = f <$> filter (λ x, P (f x)) l.
Proof.
  induction l as [|x l IH]; [done|]. rewrite fmap_cons, !filter_cons.
  case_decide; by rewrite ?fmap_cons, IH.
Qed.

Lemma airports_frame_snoc codes points c pt :
  length codes = length points →
  airports_frame (codes ++ [c]) (points ++ [pt])
  = airports_frame codes points ++ [{| code := c; point := pt |}].
Proof. intros Hlen. unfold airports_frame. by rewrite zip_with_app. Qed.

(** The second loop appends the rows of the codes it has not seen, each
    once, in the order in which it first reads them. *)
Lemma code_loop_closed airports l p acc acc' :
  airports_inv airports p acc →
  for_each (code_step airports) l acc = Ok acc' →
  airports_frame (airport_codes acc') (airport_points acc')
  = airports_frame (airport_codes acc) (airport_points acc)
    ++ (airport_row airports
          <$> filter (λ c, c ∉ airport_codes acc) (nub l)).
Proof.
  revert p acc. induction l as [|c l IH]; intros p acc Hinv.
  - cbn. intros [= <-]. by rewrite app_nil_r.
  - cbn [for_each nub].
    destruct (decide (c ∈ airport_codes acc)) as [Hseen|Hnew].
    + rewrite (code_step_seen _ _ _ (proj2 (inv_seen _ _ _ Hinv c) Hseen)).
      cbn. intros Hrun. rewrite (IH _ _ Hinv Hrun). do 2 f_equal.
      rewrite decide_False by auto.
      rewrite (list_filter_filter (λ x, x ∉ airport_codes acc)
                 (λ x, x ≠ c) (nub l)).
      apply list_filter_iff. intros x. split; [|tauto].
      intros Hx. split; [done|]. by intros ->.
    + destruct (airports !! c) as [a|] eqn:Hc.
      * destruct (code_step_known _ _ _ _ _ Hinv Hc) as (acc1 & Hstep & Hinv1).
        rewrite Hstep. cbn. intros Hrun. rewrite (IH _ _ Hinv1 Hrun).
        rewrite (code_step_new _ _ _ a) in Hstep;
          [|by rewrite (inv_seen _ _ _ Hinv)|done].
        injection Hstep as <-. cbn.
        rewrite airports_frame_snoc
          by apply (Forall2_length _ _ _ (inv_points _ _ _ Hinv)).
        rewrite <-app_assoc. f_equal. rewrite decide_True by done.
        cbn. f_equal.
        { unfold airport_row. by rewrite Hc. }
        f_equal.
        rewrite (list_filter_filter (λ x, x ∉ airport_codes acc)
                   (λ x, x ≠ c) (nub l)).
        apply list_filter_iff.
        intros x. rewrite elem_of_app, list_elem_of_singleton. tauto.
      * by rewrite (code_step_unknown _ _ _ _ Hinv Hc).
Qed.

(** The airport rows returned are the rows of the waypoints without their
    repetitions. *)
Lemma prepare_flight_data_airports cmap airports flights fg ag :
  prepare_flight_data cmap airports flights = Ok (fg, ag) →
  ag = airport_row airports <$> nub (concat flights).
Proof.
  rewrite prepare_flight_data_loops.
  destruct (mapM _ (enumerate flights)) as [blocks|]; cbn; [|done].
  destruct (for_each _ (concat flights) _) as [aps|] eqn:Hloop; cbn; [|done].
  intros [= _ <-].
  rewrite (code_loop_closed _ _ _ _ _ (airports_inv_init _) Hloop). cbn.
  rewrite filter_all; [done|]. by intros x ?%elem_of_nil.
Qed.

Lemma zip_seq_shift {A} n start (l : list A) :
  zip (seq (n + start) (length l)) l
  = prod_map (Nat.add n) id <$> zip (seq start (length l)) l.
Proof.
  revert start. induction l as [|x l IH]; intros start; [done|]. cbn.
  f_equal. rewrite <-IH. by rewrite Nat.add_succ_r.
Qed.

Lemma enumerate_app {A} (l1 l2 : list A) :
  enumerate (l1 ++ l2)
  = enumerate l1 ++ (prod_map (Nat.add (length l1)) id <$> enumerate l2).
Proof.
  unfold enumerate. rewrite length_app, seq_app, zip_with_app
    by by rewrite length_seq.
  f_equal. rewrite <-zip_seq_shift. by rewrite Nat.add_0_r.
Qed.

Lemma mapM_fmap {A B C} (f : B → result C) (g : A → B) l :
  mapM f (g <$> l) = mapM (f ∘ g) l.
Proof. induction l as [|x l IH]; cbn; [done|]. by rewrite IH. Qed.

Lemma mapM_ext {A B} (f g : A → result B) l :
  (∀ x, f x = g x) → mapM f l = mapM g l.
Proof. intros H. induction l as [|x l IH]; cbn; [done|]. by rewrite H, IH. Qed.

Lemma flight_color_rotate n cmap idx :
  flight_color (rotate n cmap) idx = flight_color cmap (n + idx).
Proof.
  unfold flight_color, rotate. cbn. by rewrite Nat.Div0.add_mod_idemp_r.
Qed.

Lemma all_known_app airports flights1 flights2 :
  all_known airports (flights1 ++ flights2) →
  all_known airports flights1 ∧ all_known airports flights2.
Proof.
  intros H. split; intros flight c Hf Hc; apply (H flight c); try done;
    apply elem_of_app; auto.
Qed.

(** X8: the result for two inputs put one after the other. With all codes
    known, the segments are those of the first input followed by those of
    the second, the second coloured as from palette slot [length flights1]
    on, and the airport points are those of the first input followed by
    the points of the second input whose code the first does not have. *)
Theorem prepare_flight_data_app cmap airports flights1 flights2 :
  all_known airports (flights1 ++ flights2) →
  ∃ segments1 airports1 segments2 airports2,
    prepare_flight_data cmap airports flights1
      = Ok (segments1, airports1) ∧
    prepare_flight_data (rotate (length flights1) cmap) airports flights2
      = Ok (segments2, airports2) ∧
    prepare_flight_data cmap airports (flights1 ++ flights2)
      = Ok (segments1 ++ segments2,
            airports1
            ++ filter (λ row, code row ∉ code <$> airports1) airports2).
Proof.
  intros Hknown. destruct (all_known_app _ _ _ Hknown) as [Hk1 Hk2].
  destruct (prepare_flight_data_total cmap _ _ Hk1) as (fg1 & ag1 & H1).
  destruct (prepare_flight_data_total (rotate (length flights1) cmap) _ _ Hk2)
    as (fg2 & ag2 & H2).
  destruct (prepare_flight_data_total cmap _ _ Hknown) as (fg & ag & H).
  exists fg1, ag1, fg2, ag2. split; [done|]. split; [done|].
  rewrite H. do 2 f_equal.
  - rewrite prepare_flight_data_loops in H, H1, H2.
    rewrite enumerate_app, mapM_app, mapM_fmap in H.
    rewrite (mapM_ext _ (flight_rows (rotate (length flights1) cmap) airports))
      in H.
    2:{ intros [idx flight]. unfold flight_rows, compose, prod_map.
        cbn [fst snd id]. by rewrite flight_color_rotate. }
    destruct (mapM _ (enumerate flights1)) as [bs1|]; cbn in H, H1; [|done].
    destruct (mapM _ (enumerate flights2)) as [bs2|]; cbn in H, H2; [|done].
    destruct (for_each _ (concat flights1) _); cbn in H1; [|done].
    destruct (for_each _ (concat flights2) _); cbn in H2; [|done].
    destruct (for_each _ (concat (flights1 ++ flights2)) _); cbn in H; [|done].
    injection H as <- _. injection H1 as <- _. injection H2 as <- _.
    apply concat_app.
  - rewrite (prepare_flight_data_airports _ _ _ _ _ H),
      (prepare_flight_data_airports _ _ _ _ _ H1),
      (prepare_flight_data_airports _ _ _ _ _ H2).
    rewrite concat_app, nub_app, fmap_app. f_equal.
    rewrite filter_fmap_list. f_equal. apply list_filter_iff. intros c. cbn.
    rewrite <-list_fmap_compose.
    assert (code ∘ airport_row airports <$> nub (concat flights1)
            = nub (concat flights1)) as ->.
    { clear. induction (nub (concat flights1)) as [|x l IH]; [done|].
      cbn. by rewrite IH. }
    by rewrite elem_of_nub.
Qed.

Lemma prepare_flight_data_app_witness :
  ∃ segments1 airports1 segments2 airports2,
    prepare_flight_data demo_cmap demo_airports [["PRG"; "LAS"]]
      = Ok (segments1, airports1) ∧
    prepare_flight_data (rotate 1 demo_cmap) demo_airports
        [["LAS"; "JFK"; "PRG"]]
      = Ok (segments2, airports2) ∧
    prepare_flight_data demo_cmap demo_airports
        [["PRG"; "LAS"]; ["LAS"; "JFK"; "PRG"]]
      = Ok (segments1 ++ segments2,
            airports1
            ++ filter (λ row, code row ∉ code <$> airports1) airports2).
Proof.
  apply (prepare_flight_data_app demo_cmap demo_airports
           [["PRG"; "LAS"]] [["LAS"; "JFK"; "PRG"]]).
  apply all_known_Forall.
  repeat (first [apply Forall_nil_2 | apply Forall_cons_2]);
    vm_compute; eexists; reflexivity.
Defined.

(** ** The agent from its run *)

Section orchestrator_runs.
Context {World PlatformFile : Type}.
Variable cmap : Colormap.
Variable airports : gmap string Airport.
Variable total_bounds : list (list Coord) → float * float * float * float.
Variable plot_png :
  World → list FlightRow → list AirportRow → float * float → float * float →
  result (list Byte.byte).
Variable render : FoliumMap → string.
Variable b64encode : list Byte.byte → string.
Variable File_create : string → list Byte.byte → string → result PlatformFile.
Variable from_client : result unit.
Variable agent_run : string → Run World.

Abbreviation run_loop :=
  (fold_left (loop_step (PlatformFile := PlatformFile)
                cmap airports total_bounds plot_png render)).

(** The loop appends the deltas of the run to the answer and yields them,
    and nothing else. *)
Lemma loop_deltas (run_steps : list (Step World)) (st : Loop) :
  final_answer (run_loop run_steps st)
    = final_answer st ++ deltas_of run_steps ∧
  emitted (run_loop run_steps st)
    = emitted st ++ (YieldDelta <$> deltas_of run_steps).
Proof.
  revert st. induction run_steps as [|step run_steps IH]; intros st; cbn.
  - by rewrite !app_nil_r.
  - destruct (IH (loop_step cmap airports total_bounds plot_png render st step))
      as [-> ->].
    destruct step as [[delta|]|flights read_file|]; cbn;
      by rewrite <-?app_assoc.
Qed.

(** The buffers are assigned together. *)
Lemma loop_buffers_together (run_steps : list (Step World)) (st : Loop) :
  (is_Some (static_png_bytes (buffers st))
   ↔ is_Some (interactive_html_bytes (buffers st))) →
  is_Some (static_png_bytes (buffers (run_loop run_steps st)))
  ↔ is_Some (interactive_html_bytes (buffers (run_loop run_steps st))).
Proof.
  revert st. induction run_steps as [|step run_steps IH]; intros st Hst;
    cbn; [done|].
  apply IH. destruct step as [[delta|]|flights read_file|]; cbn; try done.
  destruct (visualize_flights_cases cmap airports total_bounds plot_png render
              flights read_file (buffers st))
    as [[e ->]|(png & html & -> & _)]; cbn; [done|].
  split; by eexists.
Qed.

(** Steps that assign nothing leave the buffers as they are. *)
Lemma loop_buffers_kept (run_steps : list (Step World)) (st : Loop) :
  (∀ step png, step ∈ run_steps →
     ¬ sets_static cmap airports total_bounds plot_png step png) →
  buffers (run_loop run_steps st) = buffers st.
Proof.
  revert st. induction run_steps as [|step run_steps IH]; intros st Hkept;
    cbn; [done|].
  rewrite IH by (intros ???; apply Hkept; by right).
  destruct step as [[delta|]|flights read_file|]; cbn; try done.
  destruct (visualize_flights_cases cmap airports total_bounds plot_png render
              flights read_file (buffers st))
    as [[e ->]|(png & html & _ & Hs & _)]; cbn; [done|].
  destruct (Hkept _ png ltac:(by left) Hs).
Qed.

(** After a successful invocation followed by steps that assign nothing,
    the buffers hold the renderings of that invocation. *)
Lemma loop_last_success pre post flights read_file fg ag png st :
  prepare_flight_data cmap airports flights = Ok (fg, ag) →
  create_static_map total_bounds plot_png read_file fg ag = Ok png →
  (∀ step png', step ∈ post →
     ¬ sets_static cmap airports total_bounds plot_png step png') →
  buffers (run_loop (pre ++ CallVisualize flights read_file :: post) st)
  = {| static_png_bytes := Some png;
       interactive_html_bytes :=
         Some (create_interactive_map render fg ag) |}.
Proof.
  intros Hp Hs Hpost. rewrite fold_left_app. cbn.
  rewrite loop_buffers_kept by done. cbn.
  unfold visualize_flights. by rewrite Hp, Hs.
Qed.

(** X9: the answer of the agent. The deltas of the final-answer events are
    yielded in the order of the run, before any file part, and nothing is
    yielded for the other events; the text part of the final message is
    their concatenation, and the file parts of the message are the file
    parts that were yielded, at most two, in the same order. *)
Theorem answer_is_the_deltas input text :
  input_text input = Ok text → from_client = Ok () →
  let run := agent_run ("Search flights for the user query: " +:+ text) in
  let out :=
    flight_search_agent cmap airports total_bounds plot_png render
      b64encode File_create from_client agent_run input in
  ∃ files,
    yielded out
      = (YieldDelta <$> deltas_of (steps run))
        ++ ((λ f, YieldPart (FilePart f)) <$> files) ∧
    length files ≤ 2 ∧
    (∀ msg, final_message out = Some msg →
       msg = TextPart (String.concat "" (deltas_of (steps run)))
             :: (FilePart <$> files)).
Proof.
  intros Htext Hclient run out. subst out. unfold flight_search_agent.
  rewrite Htext, Hclient. fold run.
  set (init := {| buffers := _; final_answer := []; emitted := [] |}).
  destruct (loop_deltas (steps run) init) as [Hanswer Hyield].
  cbn in Hanswer, Hyield. rewrite Hanswer, Hyield.
  destruct (run_raised run) as [e|].
  { exists []. cbn. rewrite app_nil_r. split_and!; [done|lia|done]. }
  destruct (static_png_bytes _) as [png|];
    destruct (interactive_html_bytes _) as [html|];
    try destruct (File_create "flights.html" html "text/html") as [f|e];
    cbn.
  - exists [FileWithBytes (b64encode png) "image/png" "flights.png";
            Uploaded f].
    rewrite <-app_assoc. split_and!; [done|cbn; lia|]. by intros msg [= <-].
  - exists [FileWithBytes (b64encode png) "image/png" "flights.png"].
    split_and!; [done|cbn; lia|done].
  - exists [FileWithBytes (b64encode png) "image/png" "flights.png"].
    split_and!; [done|cbn; lia|]. by intros msg [= <-].
  - exists [Uploaded f]. split_and!; [done|cbn; lia|]. by intros msg [= <-].
  - exists []. cbn. rewrite app_nil_r. split_and!; [done|lia|done].
  - exists []. cbn. rewrite app_nil_r. split_and!; [done|lia|].
    by intros msg [= <-].
Qed.


(** X11: the renderings that are delivered are those of the last
    invocation of the tool that succeeded. When the run ends normally, an
    invocation on [flights] returned, no later step assigned the buffers,
    and the upload succeeds, the agent yields the deltas, then the PNG of
    that invocation, then the uploaded HTML of that invocation, and its
    final message is the answer followed by these two parts. *)
Theorem last_successful_invocation_is_delivered
    input text pre flights read_file post flights_gdf airports_gdf png f :
  let run := agent_run ("Search flights for the user query: " +:+ text) in
  input_text input = Ok text → from_client = Ok () →
  run_raised run = None →
  steps run = pre ++ CallVisualize flights read_file :: post →
  prepare_flight_data cmap airports flights
    = Ok (flights_gdf, airports_gdf) →
  create_static_map total_bounds plot_png read_file flights_gdf airports_gdf
    = Ok png →
  (∀ step png', step ∈ post →
     ¬ sets_static cmap airports total_bounds plot_png step png') →
  File_create "flights.html"
    (create_interactive_map render flights_gdf airports_gdf) "text/html"
    = Ok f →
  flight_search_agent cmap airports total_bounds plot_png render
    b64encode File_create from_client agent_run input
  = {| yielded :=
         (YieldDelta <$> deltas_of (steps run))
         ++ [YieldPart (png_part b64encode png);
             YieldPart (FilePart (Uploaded f))];
       final_message :=
         Some [TextPart (String.concat "" (deltas_of (steps run)));
               png_part b64encode png; FilePart (Uploaded f)];
       raised := None |}.
Proof.
  intros run Htext Hclient Hraised Hsteps Hp Hs Hpost Hf.
  unfold flight_search_agent. rewrite Htext, Hclient. fold run.
  set (init := {| buffers := _; final_answer := []; emitted := [] |}).
  destruct (loop_deltas (steps run) init) as [Hanswer Hyield].
  assert (buffers (run_loop (steps run) init)
          = {| static_png_bytes := Some png;
               interactive_html_bytes :=
                 Some (create_interactive_map render flights_gdf
                                              airports_gdf) |}) as Hbuf
    by (rewrite Hsteps; by apply loop_last_success).
  cbn in Hanswer, Hyield. rewrite Hraised, Hanswer, Hyield, Hbuf.
  cbn. rewrite Hf. cbn. by rewrite <-app_assoc.
Qed.

(** X12: when the iteration of the run ends with an exception, the agent
    has yielded the deltas received so far and nothing else: no file part
    is yielded and no final message is made, whatever the tool has put
    into the buffers. *)
Theorem run_exception_drops_the_files input text e :
  let run := agent_run ("Search flights for the user query: " +:+ text) in
  input_text input = Ok text → from_client = Ok () →
  run_raised run = Some e →
  flight_search_agent cmap airports total_bounds plot_png render
    b64encode File_create from_client agent_run input
  = {| yielded := YieldDelta <$> deltas_of (steps run);
       final_message := None;
       raised := Some e |}.
Proof.
  intros run Htext Hclient Hraised.
  unfold flight_search_agent. rewrite Htext, Hclient. fold run.
  set (init := {| buffers := _; final_answer := []; emitted := [] |}).
  destruct (loop_deltas (steps run) init) as [_ Hyield].
  cbn in Hyield. by rewrite Hraised, Hyield.
Qed.

(** X13: when the upload of the HTML fails, the PNG part has already been
    yielded after the deltas, but no final message is made and the
    exception of the upload leaves the agent. *)
Theorem upload_failure_after_png
    input text pre flights read_file post flights_gdf airports_gdf png e :
  let run := agent_run ("Search flights for the user query: " +:+ text) in
  input_text input = Ok text → from_client = Ok () →
  run_raised run = None →
  steps run = pre ++ CallVisualize flights read_file :: post →
  prepare_flight_data cmap airports flights
    = Ok (flights_gdf, airports_gdf) →
  create_static_map total_bounds plot_png read_file flights_gdf airports_gdf
    = Ok png →
  (∀ step png', step ∈ post →
     ¬ sets_static cmap airports total_bounds plot_png step png') →
  File_create "flights.html"
    (create_interactive_map render flights_gdf airports_gdf) "text/html"
    = Raise e →
  flight_search_agent cmap airports total_bounds plot_png render
    b64encode File_create from_client agent_run input
  = {| yielded :=
         (YieldDelta <$> deltas_of (steps run))
         ++ [YieldPart (png_part b64encode png)];
       final_message := None;
       raised := Some e |}.
Proof.
  intros run Htext Hclient Hraised Hsteps Hp Hs Hpost Hf.
  unfold flight_search_agent. rewrite Htext, Hclient. fold run.
  set (init := {| buffers := _; final_answer := []; emitted := [] |}).
  destruct (loop_deltas (steps run) init) as [Hanswer Hyield].
  assert (buffers (run_loop (steps run) init)
          = {| static_png_bytes := Some png;
               interactive_html_bytes :=
                 Some (create_interactive_map render flights_gdf
                                              airports_gdf) |}) as Hbuf
    by (rewrite Hsteps; by apply loop_last_success).
  cbn in Hanswer, Hyield. rewrite Hraised, Hanswer, Hyield, Hbuf.
  cbn. by rewrite Hf.
Qed.

End orchestrator_runs.

Lemma answer_is_the_deltas_witness :
  ∃ files,
    yielded (demo_agent demo_run_twice [TextPart "PRG to LAS"])
      = (YieldDelta <$> ["Two "; "flights."])
        ++ ((λ f, YieldPart (FilePart f)) <$> files) ∧
    length files ≤ 2 ∧
    (∀ msg,
       final_message (demo_agent demo_run_twice [TextPart "PRG to LAS"])
         = Some msg →
       msg = TextPart "Two flights." :: (FilePart <$> files)).
Proof.
  apply (answer_is_the_deltas demo_cmap demo_airports demo_total_bounds
           demo_plot_png demo_render demo_b64encode demo_File_create
           (Ok ()) demo_run_twice [TextPart "PRG to LAS"] "PRG to LAS");
    reflexivity.
Defined.


Lemma demo_run_twice_tail step png :
  step ∈ [ CallVisualize [["XXX"]] (Ok ()); Emit OtherEvent;
           CallVisualize [["LAS"; "JFK"]] basemap_unreachable;
           Emit (RequirementAgentFinalAnswerEvent "flights.") ] →
  ¬ sets_static demo_cmap demo_airports demo_total_bounds demo_plot_png
      step png.
Proof.
  intros Hin (flights & rf & fg & ag & -> & Hp & Hs).
  repeat (apply elem_of_cons in Hin as [Hin|Hin]; [try discriminate|]).
  - injection Hin as -> ->. vm_compute in Hp. discriminate.
  - injection Hin as -> ->. discriminate.
  - by apply elem_of_nil in Hin.
Qed.

Lemma last_successful_invocation_is_delivered_witness :
  demo_agent demo_run_twice [TextPart "PRG to LAS"]
  = {| yielded :=
         [ YieldDelta "Two "; YieldDelta "flights.";
           YieldPart (FilePart (FileWithBytes "iVBORw==" "image/png"
                                              "flights.png"));
           YieldPart (FilePart (Uploaded "file:flights.html")) ];
       final_message :=
         Some [ TextPart "Two flights.";
                FilePart (FileWithBytes "iVBORw==" "image/png" "flights.png");
                FilePart (Uploaded "file:flights.html") ];
       raised := None |}.
Proof.
  eapply (last_successful_invocation_is_delivered demo_cmap demo_airports
            demo_total_bounds demo_plot_png demo_render demo_b64encode
            demo_File_create (Ok ()) demo_run_twice
            [TextPart "PRG to LAS"] "PRG to LAS"
            [ CallVisualize [["PRG"; "JFK"]] (Ok ());
              Emit (RequirementAgentFinalAnswerEvent "Two ") ]
            [["PRG"; "LAS"]] (Ok ())
            [ CallVisualize [["XXX"]] (Ok ()); Emit OtherEvent;
              CallVisualize [["LAS"; "JFK"]] basemap_unreachable;
              Emit (RequirementAgentFinalAnswerEvent "flights.") ]).
  - reflexivity.
  - reflexivity.
  - reflexivity.
  - reflexivity.
  - vm_compute. reflexivity.
  - vm_compute. reflexivity.
  - intros step png'. apply demo_run_twice_tail.
  - reflexivity.
Defined.

Lemma run_exception_drops_the_files_witness :
  demo_agent demo_run_interrupted [TextPart "PRG to LAS"]
  = {| yielded := [YieldDelta "One "];
       final_message := None;
       raised := Some (ExternalError "ChatModelError") |}.
Proof.
  apply (run_exception_drops_the_files demo_cmap demo_airports
           demo_total_bounds demo_plot_png demo_render demo_b64encode
           demo_File_create (Ok ()) demo_run_interrupted
           [TextPart "PRG to LAS"] "PRG to LAS"); reflexivity.
Defined.

Lemma upload_failure_after_png_witness :
  flight_search_agent demo_cmap demo_airports demo_total_bounds demo_plot_png
    demo_render demo_b64encode demo_File_create_offline (Ok ())
    demo_run_twice [TextPart "PRG to LAS"]
  = {| yielded :=
         [ YieldDelta "Two "; YieldDelta "flights.";
           YieldPart (FilePart (FileWithBytes "iVBORw==" "image/png"
                                              "flights.png")) ];
       final_message := None;
       raised := Some (ExternalError "ApiError") |}.
Proof.
  eapply (upload_failure_after_png demo_cmap demo_airports
            demo_total_bounds demo_plot_png demo_render demo_b64encode
            demo_File_create_offline (Ok ()) demo_run_twice
            [TextPart "PRG to LAS"] "PRG to LAS"
            [ CallVisualize [["PRG"; "JFK"]] (Ok ());
              Emit (RequirementAgentFinalAnswerEvent "Two ") ]
            [["PRG"; "LAS"]] (Ok ())
            [ CallVisualize [["XXX"]] (Ok ()); Emit OtherEvent;
              CallVisualize [["LAS"; "JFK"]] basemap_unreachable;
              Emit (RequirementAgentFinalAnswerEvent "flights.") ]).
  - reflexivity.
  - reflexivity.
  - reflexivity.
  - reflexivity.
  - vm_compute. reflexivity.
  - vm_compute. reflexivity.
  - intros step png'. apply demo_run_twice_tail.
  - reflexivity.
Defined.

(** ** The renderers on the result of the route builder *)

Lemma interactive_map_children render flights_gdf airports_gdf :
  create_interactive_map render flights_gdf airports_gdf
  = encode_utf8 (render
      {| location := (30.0, 0.0)%float; zoom_start := 2;
         children :=
           ((λ row, PolyLine ((λ coord : Coord, (coord.2, coord.1))
                                <$> line row)
                             (color row) 3 0.7 (route row)) <$> flights_gdf)
           ++ ((λ row, CircleMarker ((point row).2, (point row).1) 8 "blue"
                                    true "blue" 0.7 (code row))
                 <$> airports_gdf) |}).
Proof.
  unfold create_interactive_map.
  assert (∀ rows m,
            fold_left add_flight_path rows m
            = {| location := location m; zoom_start := zoom_start m;
                 children := children m
                   ++ ((λ row, PolyLine ((λ coord : Coord, (coord.2, coord.1))
                                           <$> line row)
                                        (color row) 3 0.7 (route row))
                         <$> rows) |}) as Hlines.
  { induction rows as [|row rows IH]; intros m; cbn.
    - rewrite app_nil_r. by destruct m.
    - rewrite IH. cbn. by rewrite <-app_assoc. }
  assert (∀ rows m,
            fold_left add_airport rows m
            = {| location := location m; zoom_start := zoom_start m;
                 children := children m
                   ++ ((λ row, CircleMarker ((point row).2, (point row).1) 8
                                            "blue" true "blue" 0.7 (code row))
                         <$> rows) |}) as Hmarkers.
  { induction rows as [|row rows IH]; intros m; cbn.
    - rewrite app_nil_r. by destruct m.
    - rewrite IH. cbn. by rewrite <-app_assoc. }
  by rewrite Hlines, Hmarkers.
Qed.

(** X14: the interactive map of a list of itineraries whose codes all
    resolve. The leg from waypoint j to waypoint j+1 of itinerary i is the
    child number [segments_before flights i + j] of the map: a poly-line
    from (lat, lon) of the origin to (lat, lon) of the destination,
    latitude first although the frames keep longitude first, in the colour
    of itinerary i, with the label as tooltip. The markers follow all the
    poly-lines, one per airport point at (lat, lon) of its airport, and the
    map has no other child. *)
Theorem interactive_map_of_flights cmap airports render flights :
  all_known airports flights →
  ∃ flights_gdf airports_gdf m,
    prepare_flight_data cmap airports flights
      = Ok (flights_gdf, airports_gdf) ∧
    create_interactive_map render flights_gdf airports_gdf
      = encode_utf8 (render m) ∧
    length (children m) = length flights_gdf + length airports_gdf ∧
    (∀ i flight j o d,
       flights !! i = Some flight →
       flight !! j = Some o → flight !! (j + 1) = Some d →
       ∃ ao ad,
         airports !! o = Some ao ∧ airports !! d = Some ad ∧
         children m !! (segments_before flights i + j)
         = Some (PolyLine [(lat ao, lon ao); (lat ad, lon ad)]
                          (flight_color cmap i) 3 0.7
                          (segment_label o d (join arrow flight)))) ∧
    (∀ k row, airports_gdf !! k = Some row →
       ∃ a, airports !! code row = Some a ∧
            children m !! (length flights_gdf + k)
            = Some (CircleMarker (lat a, lon a) 8 "blue" true "blue" 0.7
                                 (code row))).
Proof.
  intros Hknown.
  destruct (prepare_flight_data_known cmap _ _ Hknown)
    as (blocks & acc & Hrun & Hblocks & Hinv).
  eexists _, _, _. split; [exact Hrun|].
  split; [apply interactive_map_children|]. cbn [children]. split_and!.
  - by rewrite length_app, !length_fmap.
  - intros i flight j o d Hi Ho Hd.
    destruct (blocks_of_lookup _ _ _ _ _ _ Hblocks Hi) as (block & Hb & Hrows).
    assert (consecutive flight !! j = Some (o, d)) as Hod
      by by apply consecutive_lookup.
    destruct (Forall2_lookup_l _ _ _ _ _ Hrows Hod) as (row & Hrow & Hleg).
    apply leg_row_Ok in Hleg as (ao & ad & Hao & Had & ->).
    exists ao, ad. split_and!; [done..|].
    apply lookup_app_l_Some. rewrite list_lookup_fmap.
    rewrite <-(blocks_of_offset _ _ _ _ i Hblocks).
    by rewrite (concat_lookup_offset _ _ _ _ _ Hb Hrow).
  - intros k row Hk.
    destruct (airports_frame_rows _ _ _ (inv_points _ _ _ Hinv)
                (list_elem_of_lookup_2 _ _ _ Hk)) as (a & Ha & Hpt).
    exists a. split; [done|].
    rewrite lookup_app_r by (rewrite length_fmap; lia).
    rewrite length_fmap, list_lookup_fmap.
    replace (length (concat blocks) + k - length (concat blocks)) with k
      by lia.
    rewrite Hk. cbn. by rewrite Hpt.
Qed.

Lemma interactive_map_of_flights_witness :
  ∃ flights_gdf airports_gdf m,
    prepare_flight_data demo_cmap demo_airports
        [["PRG"; "LAS"]; ["JFK"; "LAS"; "PRG"]]
      = Ok (flights_gdf, airports_gdf) ∧
    create_interactive_map demo_render flights_gdf airports_gdf
      = encode_utf8 (demo_render m) ∧
    length (children m) = length flights_gdf + length airports_gdf ∧
    (∀ i flight j o d,
       [["PRG"; "LAS"]; ["JFK"; "LAS"; "PRG"]] !! i = Some flight →
       flight !! j = Some o → flight !! (j + 1) = Some d →
       ∃ ao ad,
         demo_airports !! o = Some ao ∧ demo_airports !! d = Some ad ∧
         children m
           !! (segments_before [["PRG"; "LAS"]; ["JFK"; "LAS"; "PRG"]] i + j)
         = Some (PolyLine [(lat ao, lon ao); (lat ad, lon ad)]
                          (flight_color demo_cmap i) 3 0.7
                          (segment_label o d (join arrow flight)))) ∧
    (∀ k row, airports_gdf !! k = Some row →
       ∃ a, demo_airports !! code row = Some a ∧
            children m !! (length flights_gdf + k)
            = Some (CircleMarker (lat a, lon a) 8 "blue" true "blue" 0.7
                                 (code row))).
Proof.
  apply (interactive_map_of_flights demo_cmap demo_airports demo_render
           [["PRG"; "LAS"]; ["JFK"; "LAS"; "PRG"]]).
  apply all_known_Forall.
  repeat (first [apply Forall_nil_2 | apply Forall_cons_2]);
    vm_compute; eexists; reflexivity.
Defined.

Lemma annotate_airports rows calls :
  fold_left annotate_airport rows calls
  = calls ++ ((λ row, Annotate (code row) ((point row).1, (point row).2)
                               (5, 5) "offset points" 10 "bold"
                               "round,pad=0.3" "yellow" 0.7) <$> rows).
Proof.
  revert calls. induction rows as [|row rows IH]; intros calls; cbn.
  - by rewrite app_nil_r.
  - rewrite IH. unfold annotate_airport. by rewrite <-app_assoc.
Qed.

(** X15: the static figure of a list of itineraries whose codes all
    resolve, with the basemap loaded. The calls handed to matplotlib are
    the basemap layer, the layer of all segments with their colours, the
    layer of all airport points above it, then one text label per
    different code of the input, in the order of first occurrence, with
    the code as text and (lon, lat) of its airport as anchor, then the
    crop to the padded bounds of all segment and point geometries, the
    title, and the save. *)
Theorem static_map_of_flights {World : Type} cmap airports total_bounds
    (matplotlib : World → list Call → result (list Byte.byte)) world flights :
  all_known airports flights →
  ∃ flights_gdf airports_gdf labels xlim ylim,
    prepare_flight_data cmap airports flights
      = Ok (flights_gdf, airports_gdf) ∧
    padded_limits
      (total_bounds ((line <$> flights_gdf)
                     ++ ((λ row, [point row]) <$> airports_gdf)))
      = (xlim, ylim) ∧
    create_static_map_calls total_bounds matplotlib (Ok world)
      flights_gdf airports_gdf
    = matplotlib world
        ([ Subplots (15, 10);
           PlotWorld "lightgray" "black" 0.5;
           PlotFlights (line <$> flights_gdf) (color <$> flights_gdf) 2 0.7 2;
           PlotAirports (point <$> airports_gdf) "blue" 100 0.9 3 ]
         ++ labels
         ++ [ SetXlim xlim.1 xlim.2; SetYlim ylim.1 ylim.2;
              Title "Flight Paths" 16 "bold"; SetAxisOff;
              Savefig "png" 300 "tight" "white"; Close ]) ∧
    Forall2 (λ c label,
               ∃ a, airports !! c = Some a ∧
                    label = Annotate c (lon a, lat a) (5, 5) "offset points"
                                     10 "bold" "round,pad=0.3" "yellow" 0.7)
            (nub (concat flights)) labels.
Proof.
  intros Hknown.
  destruct (prepare_flight_data_total cmap _ _ Hknown) as (fg & ag & Hrun).
  pose proof (prepare_flight_data_airports _ _ _ _ _ Hrun) as Hag.
  destruct (padded_limits (total_bounds ((line <$> fg)
              ++ ((λ row, [point row]) <$> ag)))) as [xlim ylim] eqn:Hlim.
  eexists fg, ag, _, xlim, ylim. split; [done|]. split; [done|]. split.
  - unfold create_static_map_calls, create_static_map. cbn. rewrite Hlim.
    unfold static_map_calls. rewrite annotate_airports.
    by rewrite <-app_assoc.
  - rewrite Hag. rewrite <-list_fmap_compose. apply Forall2_fmap_r.
    apply Forall_Forall2_diag, Forall_forall. intros c Hc.
    apply (proj1 (elem_of_nub _ _)) in Hc.
    apply elem_of_concat in Hc as (flight & Hf & Hc).
    destruct (Hknown flight c Hf Hc) as [a Ha]. exists a. split; [done|].
    cbn. by rewrite Ha.
Qed.

Lemma static_map_of_flights_witness :
  ∃ flights_gdf airports_gdf labels xlim ylim,
    prepare_flight_data demo_cmap demo_airports
        [["PRG"; "LAS"]; ["JFK"; "LAS"; "PRG"]]
      = Ok (flights_gdf, airports_gdf) ∧
    padded_limits
      (demo_total_bounds ((line <$> flights_gdf)
                          ++ ((λ row, [point row]) <$> airports_gdf)))
      = (xlim, ylim) ∧
    create_static_map_calls demo_total_bounds demo_matplotlib (Ok ())
      flights_gdf airports_gdf
    = demo_matplotlib ()
        ([ Subplots (15, 10);
           PlotWorld "lightgray" "black" 0.5;
           PlotFlights (line <$> flights_gdf) (color <$> flights_gdf) 2 0.7 2;
           PlotAirports (point <$> airports_gdf) "blue" 100 0.9 3 ]
         ++ labels
         ++ [ SetXlim xlim.1 xlim.2; SetYlim ylim.1 ylim.2;
              Title "Flight Paths" 16 "bold"; SetAxisOff;
              Savefig "png" 300 "tight" "white"; Close ]) ∧
    Forall2 (λ c label,
               ∃ a, demo_airports !! c = Some a ∧
                    label = Annotate c (lon a, lat a) (5, 5) "offset points"
                                     10 "bold" "round,pad=0.3" "yellow" 0.7)
            ["PRG"; "LAS"; "JFK"] labels.
Proof.
  apply (static_map_of_flights demo_cmap demo_airports demo_total_bounds
           demo_matplotlib () [["PRG"; "LAS"]; ["JFK"; "LAS"; "PRG"]]).
  apply all_known_Forall.
  repeat (first [apply Forall_nil_2 | apply Forall_cons_2]);
    vm_compute; eexists; reflexivity.
Defined.
